(** * Session keys for TEN: encoding utilities, state store, lifecycle
      manager and transaction builder, embedded from the TypeScript sources.

    JavaScript strings are lists of characters, bigints and integral numbers
    are [Z], a number that may be [NaN] is an [option Z], byte arrays are
    lists of [Z] below 256.  Asynchronous operations are run to completion
    one after the other over an explicit world (state record, subscriber
    set, persisted blob, log of provider requests). *)

From Stdlib Require Import String Ascii ZArith Bool Lia QArith Qcanon Qround List.
Import ListNotations.
Local Open Scope Z_scope.
Set Warnings "-register-all".

(** ** JavaScript strings *)

Definition lit (s : string) : list ascii := list_ascii_of_string s.

Definition code (c : ascii) : Z := Z.of_N (N_of_ascii c).
Definition chr (z : Z) : ascii := ascii_of_N (Z.to_N z).

Fixpoint str_eqb (a b : list ascii) : bool :=
  match a, b with
  | [], [] => true
  | x :: a', y :: b' => Ascii.eqb x y && str_eqb a' b'
  | _, _ => false
  end.

(** [s.startsWith(p)] *)
Fixpoint startsWith (p s : list ascii) : bool :=
  match p, s with
  | [], _ => true
  | x :: p', y :: s' => Ascii.eqb x y && startsWith p' s'
  | _ :: _, [] => false
  end.

(** [s.toLowerCase()] on the ASCII range. *)
Definition lower_char (c : ascii) : ascii :=
  if (65 <=? code c) && (code c <=? 90) then chr (code c + 32) else c.

Definition toLowerCase (s : list ascii) : list ascii := map lower_char s.

(** [s.padStart(n, c)] and [s.padEnd(n, c)] with a one-character filler. *)
Definition padStart (n : nat) (c : ascii) (s : list ascii) : list ascii :=
  repeat c (n - length s) ++ s.

Definition padEnd (n : nat) (c : ascii) (s : list ascii) : list ascii :=
  s ++ repeat c (n - length s).

(** [s.slice(0, n)], [s.slice(-n)] and [s.slice(0, -n)] for [n > 0]. *)
Definition slice_to (n : nat) (s : list ascii) : list ascii := firstn n s.
Definition slice_last (n : nat) (s : list ascii) : list ascii :=
  skipn (length s - n) s.

(** [s.split('.')]: the pieces between the dots, at least one piece. *)
Fixpoint split_dot (s : list ascii) : list (list ascii) :=
  match s with
  | [] => [[]]
  | c :: s' =>
      if Ascii.eqb c "."%char then [] :: split_dot s'
      else match split_dot s' with
           | p :: ps => (c :: p) :: ps
           | [] => [[c]]
           end
  end.

(** [s.replace(p, '')]: removes the first occurrence of [p], if any. *)
Fixpoint replace_empty (p s : list ascii) : list ascii :=
  if startsWith p s then skipn (length p) s
  else match s with
       | c :: s' => c :: replace_empty p s'
       | [] => []
       end.

(** White space removed by the string-to-number conversions. *)
Definition is_space (c : ascii) : bool :=
  let n := code c in
  (n =? 32) || ((9 <=? n) && (n <=? 13)).

Fixpoint trim_left (s : list ascii) : list ascii :=
  match s with
  | c :: s' => if is_space c then trim_left s' else s
  | [] => []
  end.

Definition trim (s : list ascii) : list ascii :=
  rev (trim_left (rev (trim_left s))).

(** ** Digits *)

Definition digit_char (d : Z) : ascii :=
  if d <? 10 then chr (48 + d) else chr (87 + d).

Definition char_digit (c : ascii) : option Z :=
  let n := code c in
  if (48 <=? n) && (n <=? 57) then Some (n - 48)
  else if (97 <=? n) && (n <=? 122) then Some (n - 87)
  else if (65 <=? n) && (n <=? 90) then Some (n - 55)
  else None.

Definition is_digit (b : Z) (c : ascii) : bool :=
  match char_digit c with
  | Some d => d <? b
  | None => false
  end.

(** Value of a run of digits in radix [b], most significant first; a
    character that is no digit counts as 0 (callers check with [is_digit]). *)
Definition digit_val (c : ascii) : Z :=
  match char_digit c with Some d => d | None => 0 end.

Definition dval (b : Z) (ds : list ascii) : Z :=
  fold_left (fun acc c => acc * b + digit_val c) ds 0.

Definition all_digits (b : Z) (ds : list ascii) : bool := forallb (is_digit b) ds.

(** Longest prefix of digits of radix [b], and what follows it. *)
Fixpoint span_digits (b : Z) (s : list ascii) : list ascii * list ascii :=
  match s with
  | c :: s' =>
      if is_digit b c then let (ds, r) := span_digits b s' in (c :: ds, r)
      else ([], s)
  | [] => ([], [])
  end.

(** Digits of a non-negative integer in radix [b], no leading zero, ["0"]
    for zero: the digits of [bigint.toString(b)]. *)
Fixpoint to_digits (fuel : nat) (b n : Z) (acc : list ascii) : list ascii :=
  match fuel with
  | O => acc
  | S f =>
      let acc' := digit_char (n mod b) :: acc in
      if n / b =? 0 then acc' else to_digits f b (n / b) acc'
  end.

Definition digits_of (b n : Z) : list ascii :=
  to_digits (S (Z.to_nat (Z.log2 n))) b n [].

(** [x.toString(b)] for a bigint [x]. *)
Definition bigint_toString (b x : Z) : list ascii :=
  if x <? 0 then "-"%char :: digits_of b (- x) else digits_of b x.

(** ** Thrown values *)

(** Values a provider hands back: [null]/[undefined], a string, an opaque
    plain object (a receipt, say), or a fee-history object with its
    [baseFeePerGas] array and its [reward] matrix when present. *)
Inductive JsVal :=
| VNull
| VStr (s : list ascii)
| VObj
| VFee (baseFeePerGas : option (list (list ascii)))
       (reward : option (list (list (list ascii)))).

(** An [Error] object, identified by its message. *)
Inductive JsError := MkError (message : list ascii).

(** What a [throw] or a rejected promise carries. *)
Inductive Thrown :=
| ThrowError (e : JsError)
| ThrowOther (v : JsVal).

Inductive Result (A : Type) :=
| Ok (a : A)
| Throw (t : Thrown).
Arguments Ok {A} a.
Arguments Throw {A} t.

Definition syntaxError : Thrown := ThrowError (MkError (lit "SyntaxError: Cannot convert to BigInt")).
Definition rangeError : Thrown := ThrowError (MkError (lit "RangeError: not an integer")).
Definition typeError : Thrown := ThrowError (MkError (lit "TypeError")).

(** ** Conversions between strings and numbers *)

(** [BigInt(s)] for a string: white space trimmed, the empty string is 0,
    an optionally signed run of decimal digits, or an unsigned run of digits
    after [0x], [0o] or [0b]; anything else is a SyntaxError. *)
Definition parse_unsigned (b : Z) (ds : list ascii) : option Z :=
  match ds with
  | [] => None
  | _ => if all_digits b ds then Some (dval b ds) else None
  end.

Definition radix_prefix (c : ascii) : option Z :=
  if Ascii.eqb c "x"%char || Ascii.eqb c "X"%char then Some 16
  else if Ascii.eqb c "o"%char || Ascii.eqb c "O"%char then Some 8
  else if Ascii.eqb c "b"%char || Ascii.eqb c "B"%char then Some 2
  else None.

Definition StringToBigInt (s : list ascii) : option Z :=
  match trim s with
  | [] => Some 0
  | c :: r =>
      if Ascii.eqb c "-"%char then option_map Z.opp (parse_unsigned 10 r)
      else if Ascii.eqb c "+"%char then parse_unsigned 10 r
      else match r with
           | p :: r' =>
               if Ascii.eqb c "0"%char then
                 match radix_prefix p with
                 | Some b => parse_unsigned b r'
                 | None => parse_unsigned 10 (c :: r)
                 end
               else parse_unsigned 10 (c :: r)
           | [] => parse_unsigned 10 [c]
           end
  end.

Definition BigInt_of_string (s : list ascii) : Result Z :=
  match StringToBigInt s with
  | Some z => Ok z
  | None => Throw syntaxError
  end.

(** [BigInt(n)] for a number: [NaN] is a RangeError. *)
Definition BigInt_of_number (n : option Z) : Result Z :=
  match n with
  | Some z => Ok z
  | None => Throw rangeError
  end.

(** [parseInt(s, 16)]: leading white space and a sign are skipped, then an
    optional [0x], then the longest run of hex digits; [None] is [NaN]. *)
Definition strip_0x (s : list ascii) : list ascii :=
  match s with
  | z :: x :: r =>
      if Ascii.eqb z "0"%char && (Ascii.eqb x "x"%char || Ascii.eqb x "X"%char)
      then r else s
  | _ => s
  end.

Definition parseInt16_unsigned (s : list ascii) : option Z :=
  match fst (span_digits 16 (strip_0x s)) with
  | [] => None
  | ds => Some (dval 16 ds)
  end.

Definition parseInt16_str (s : list ascii) : option Z :=
  match trim_left s with
  | c :: r =>
      if Ascii.eqb c "-"%char then option_map Z.opp (parseInt16_unsigned r)
      else if Ascii.eqb c "+"%char then parseInt16_unsigned r
      else parseInt16_unsigned (c :: r)
  | [] => None
  end.

(** [parseInt(v, 16)] on a provider value.  A value that is no string is
    first turned into its string form: ["null"], ["undefined"] and
    ["[object Object]"] start with no hex digit, so the result is [NaN]. *)
Definition parseInt16 (v : JsVal) : option Z :=
  match v with
  | VStr s => parseInt16_str s
  | VNull | VObj | VFee _ _ => None
  end.

(** ** utils/encoding.ts *)


(** [toHex(value)] for a bigint or an integral number: [BigInt(value)] is
    the identity there. *)
Definition toHex (value : Z) : list ascii :=
  let hexStr := bigint_toString 16 value in
  let hexStr := match hexStr with [] => lit "0" | _ => hexStr end in
  lit "0x" ++ hexStr.

(** [parseInt(pair, 16)] stored into a [Uint8Array] slot: [NaN] becomes 0,
    anything else is taken modulo 256. *)
Definition uint8_of_pair (a b : ascii) : Z :=
  match parseInt16_str [a; b] with
  | Some v => v mod 256
  | None => 0
  end.

(** The loop of [hexToBytes]: the array has [length / 2] slots, so a trailing
    odd character is written out of range and dropped. *)
Fixpoint hex_pairs (s : list ascii) : list Z :=
  match s with
  | a :: b :: r => uint8_of_pair a b :: hex_pairs r
  | _ => []
  end.

Definition hexToBytes (hex : list ascii) : list Z :=
  let cleanHex := replace_empty (lit "0x") hex in
  hex_pairs cleanHex.

(** [b.toString(16).padStart(2, '0')] *)
Definition hex2 (b : Z) : list ascii :=
  padStart 2 "0"%char (bigint_toString 16 b).

Definition bytesToHex (bytes : list Z) : list ascii :=
  lit "0x" ++ concat (map hex2 bytes).

Definition parseEther (value : list ascii) : Result Z :=
  let parts := split_dot value in
  let whole := match parts with w :: _ => w | [] => [] end in
  let decimal := match parts with _ :: d :: _ => d | _ => [] end in
  let paddedDecimal := slice_to 18 (padEnd 18 "0"%char decimal) in
  BigInt_of_string (whole ++ paddedDecimal).






(** ** The rlp package *)

(** The package is a dependency, not part of the repository.  Its [encode]
    is embedded as published: a string that starts with [0x] is read as hex
    digits, padded on the left to an even count; any other string is taken
    as its character codes; then the recursive length prefix rules apply. *)
Inductive RlpInput :=
| RStr (s : list ascii)
| RList (l : list RlpInput).

Definition isHexPrefixed (s : list ascii) : bool := startsWith (lit "0x") s.

Definition padToEven (s : list ascii) : list ascii :=
  if Nat.even (length s) then s else "0"%char :: s.

Definition rlp_hexToBytes (s : list ascii) : Result (list Z) :=
  if all_digits 16 s then Ok (hex_pairs s)
  else Throw (ThrowError (MkError (lit "Invalid byte sequence"))).

Definition rlp_toBytes (s : list ascii) : Result (list Z) :=
  if isHexPrefixed s then rlp_hexToBytes (padToEven (skipn 2 s))
  else Ok (map code s).

Definition numberToHex (n : Z) : list ascii := padToEven (digits_of 16 n).

Definition encodeLength (len offset : Z) : list Z :=
  if len <? 56 then [len + offset]
  else
    let hexLength := numberToHex len in
    let lLength := Z.of_nat (length hexLength) / 2 in
    (offset + 55 + lLength) :: hex_pairs hexLength.

Definition rlp_encode_bytes (inputBuf : list Z) : list Z :=
  match inputBuf with
  | [b] => if b <? 128 then inputBuf
           else encodeLength 1 128 ++ inputBuf
  | _ => encodeLength (Z.of_nat (length inputBuf)) 128 ++ inputBuf
  end.

Fixpoint rlpEncode (input : RlpInput) : Result (list Z) :=
  match input with
  | RStr s =>
      match rlp_toBytes s with
      | Ok inputBuf => Ok (rlp_encode_bytes inputBuf)
      | Throw t => Throw t
      end
  | RList l =>
      let fix items (l : list RlpInput) : Result (list Z) :=
        match l with
        | [] => Ok []
        | x :: r =>
            match rlpEncode x with
            | Ok encoded =>
                match items r with
                | Ok output => Ok (encoded ++ output)
                | Throw t => Throw t
                end
            | Throw t => Throw t
            end
        end in
      match items l with
      | Ok output => Ok (encodeLength (Z.of_nat (length output)) 192 ++ output)
      | Throw t => Throw t
      end
  end.

(** ** btoa *)

Definition b64_char (n : Z) : ascii :=
  if n <? 26 then chr (65 + n)
  else if n <? 52 then chr (97 + (n - 26))
  else if n <? 62 then chr (48 + (n - 52))
  else if n =? 62 then "+"%char else "/"%char.

(** [btoa(String.fromCharCode(...bytes))] *)
Fixpoint btoa (bs : list Z) : list ascii :=
  match bs with
  | a :: b :: c :: r =>
      let n := a * 65536 + b * 256 + c in
      b64_char (n / 262144) :: b64_char (n / 4096 mod 64)
        :: b64_char (n / 64 mod 64) :: b64_char (n mod 64) :: btoa r
  | [a; b] =>
      let n := a * 65536 + b * 256 in
      [b64_char (n / 262144); b64_char (n / 4096 mod 64);
       b64_char (n / 64 mod 64); "="%char]
  | [a] =>
      let n := a * 65536 in
      [b64_char (n / 262144); b64_char (n / 4096 mod 64); "="%char; "="%char]
  | [] => []
  end.

(** ** types/index.ts *)

Record Balance := {
  eth : Q;
  estimatedTransactions : Z
}.

Record SessionKeyState := {
  sessionKey : option (list ascii);
  isActive : bool;
  balance : option Balance;
  isLoading : bool;
  error : option JsError
}.

(** [Partial<SessionKeyState>]: [None] is a key that is absent from the
    object, [Some v] a key that is present with value [v]. *)
Record Partial := {
  p_sessionKey : option (option (list ascii));
  p_isActive : option bool;
  p_balance : option (option Balance);
  p_isLoading : option bool;
  p_error : option (option JsError)
}.

Definition no_update : Partial :=
  {| p_sessionKey := None; p_isActive := None; p_balance := None;
     p_isLoading := None; p_error := None |}.

Record TransactionParams := {
  to : list ascii;
  data : list ascii;
  value : option (list ascii);
  nonce : option Z;
  gasLimit : option Z;
  maxFeePerGas : option (list ascii);
  maxPriorityFeePerGas : option (list ascii)
}.

(** The requests the library sends through [provider.request]; the block
    tag is always ['latest'] and is left out. *)
Inductive Request :=
| eth_chainId
| eth_getTransactionCount (address : list ascii)
| eth_feeHistory (blocks : Z) (percentiles : list Z)
| eth_estimateGas (to_ data_ value_ from_ : list ascii)
| eth_getStorageAt (address slot : list ascii)
| eth_sendTransaction (to_ value_ from_ : list ascii)
| eth_getTransactionReceipt (txHash : JsVal)
| eth_getBalance (address : list ascii).

(** An EIP-1193 provider: what it answers to a request may depend on the
    requests it has served so far. *)
Definition EIP1193Provider := list Request -> Request -> Result JsVal.

(** ** utils/constants.ts, which the sources import but which is not among
    them: its three exports are parameters. *)
Inductive Priority := LOW | MEDIUM | HIGH.

Record TenAddresses := {
  SESSION_KEY_CREATE : list ascii;
  SESSION_KEY_RETRIEVE : list ascii;
  SESSION_KEY_ACTIVATE : list ascii;
  SESSION_KEY_DEACTIVATE : list ascii;
  SESSION_KEY_DELETE : list ascii;
  SESSION_KEY_EXECUTE : list ascii
}.

Record GasSettings := {
  PRIORITY_FEE_PERCENTILES : list Z;
  FEE_HISTORY_BLOCKS : Z;
  BASE_FEE_MULTIPLIERS : Priority -> Q
}.

Class Constants := {
  TEN_ADDRESSES : TenAddresses;
  TEN_CHAIN_ID : Z;
  DEFAULT_GAS_SETTINGS : GasSettings
}.

(** ** core/state.ts *)

(** The item under ['ten-session-key-state'] in local storage. *)
Inductive Stored :=
| NoItem
| Malformed
| Blob (blobSessionKey : option (list ascii)) (blobIsActive : bool).

(** Everything the module-level variables and the environment hold.
    [subscribers] is the [Set] in insertion order, without duplicates;
    callbacks are known by identity only and observe without calling back
    into the store.  [listening] tells whether [providerCleanup] is set. *)
Record World := {
  state : SessionKeyState;
  subscribers : list nat;
  storage : Stored;
  storageWorks : bool;
  listening : bool;
  requests : list Request;
  notifications : list (nat * SessionKeyState)
}.

Definition set_state (s : SessionKeyState) (w : World) : World :=
  {| state := s; subscribers := subscribers w; storage := storage w;
     storageWorks := storageWorks w; listening := listening w;
     requests := requests w; notifications := notifications w |}.

Definition set_subscribers (l : list nat) (w : World) : World :=
  {| state := state w; subscribers := l; storage := storage w;
     storageWorks := storageWorks w; listening := listening w;
     requests := requests w; notifications := notifications w |}.

Definition set_storage (st : Stored) (w : World) : World :=
  {| state := state w; subscribers := subscribers w; storage := st;
     storageWorks := storageWorks w; listening := listening w;
     requests := requests w; notifications := notifications w |}.

Definition set_listening (b : bool) (w : World) : World :=
  {| state := state w; subscribers := subscribers w; storage := storage w;
     storageWorks := storageWorks w; listening := b;
     requests := requests w; notifications := notifications w |}.

Definition set_requests (l : list Request) (w : World) : World :=
  {| state := state w; subscribers := subscribers w; storage := storage w;
     storageWorks := storageWorks w; listening := listening w;
     requests := l; notifications := notifications w |}.

Definition set_notifications (l : list (nat * SessionKeyState)) (w : World) : World :=
  {| state := state w; subscribers := subscribers w; storage := storage w;
     storageWorks := storageWorks w; listening := listening w;
     requests := requests w; notifications := l |}.

(** Computations over the world that return or throw. *)
Definition M (A : Type) := World -> Result A * World.

Definition ret {A} (a : A) : M A := fun w => (Ok a, w).

Definition bind {A B} (m : M A) (f : A -> M B) : M B :=
  fun w => match m w with
           | (Ok a, w') => f a w'
           | (Throw t, w') => (Throw t, w')
           end.

Definition throw {A} (t : Thrown) : M A := fun w => (Throw t, w).

Definition lift {A} (r : Result A) : M A := fun w => (r, w).

Definition try_catch {A} (m : M A) (handler : Thrown -> M A) : M A :=
  fun w => match m w with
           | (Ok a, w') => (Ok a, w')
           | (Throw t, w') => handler t w'
           end.

Declare Scope js_scope.
Delimit Scope js_scope with js.
Notation "x <- m ;; k" := (bind m (fun x => k))
  (at level 61, m at next level, right associativity) : js_scope.
Notation "m ;;; k" := (bind m (fun _ => k))
  (at level 61, right associativity) : js_scope.
Local Open Scope js_scope.

(** [await provider.request(...)]: the request is logged, the answer is the
    provider's. *)
Definition request (provider : EIP1193Provider) (r : Request) : M JsVal :=
  fun w => (provider (requests w) r, set_requests (requests w ++ [r]) w).

(** [error instanceof Error ? error : new Error(msg)] *)
Definition asError (t : Thrown) (msg : string) : JsError :=
  match t with
  | ThrowError e => e
  | ThrowOther _ => MkError (lit msg)
  end.

Definition initialState : SessionKeyState :=
  {| sessionKey := None; isActive := false; balance := None;
     isLoading := false; error := None |}.

(** Load persisted state on init.  A missing item leaves the initial state;
    an item that does not parse, or storage that throws, is caught. *)
Definition loadState (st : Stored) (works : bool) : SessionKeyState :=
  if works then
    match st with
    | Blob k a =>
        {| sessionKey := k; isActive := a; balance := balance initialState;
           isLoading := isLoading initialState; error := error initialState |}
    | NoItem | Malformed => initialState
    end
  else initialState.

Definition initialWorld (st : Stored) (works : bool) : World :=
  {| state := loadState st works; subscribers := []; storage := st;
     storageWorks := works; listening := false; requests := [];
     notifications := [] |}.

Definition getState : M SessionKeyState := fun w => (Ok (state w), w).

Definition orElse {A} (o : option A) (d : A) : A :=
  match o with Some a => a | None => d end.

(** [{ ...state, ...updates }] *)
Definition merge (s : SessionKeyState) (updates : Partial) : SessionKeyState :=
  {| sessionKey := orElse (p_sessionKey updates) (sessionKey s);
     isActive := orElse (p_isActive updates) (isActive s);
     balance := orElse (p_balance updates) (balance s);
     isLoading := orElse (p_isLoading updates) (isLoading s);
     error := orElse (p_error updates) (error s) |}.

Definition is_some {A} (o : option A) : bool :=
  match o with Some _ => true | None => false end.

(** [updateState].  The [isUpdating] flag is set and cleared inside one
    synchronous stretch of code (no [await] after the loop), so with
    callbacks that only observe it is [false] at every call and the loop
    body never runs: the update is applied at once. *)
Definition updateState (updates : Partial) : M unit := fun w =>
  let s' := merge (state w) updates in
  let w1 := set_state s' w in
  let w2 :=
    if is_some (p_sessionKey updates) || is_some (p_isActive updates) then
      if storageWorks w1 then set_storage (Blob (sessionKey s') (isActive s')) w1
      else w1
    else w1 in
  (Ok tt,
   set_notifications
     (notifications w2 ++ map (fun callback => (callback, s')) (subscribers w2)) w2).

Definition set_add (x : nat) (l : list nat) : list nat :=
  if existsb (Nat.eqb x) l then l else l ++ [x].

Definition set_delete (x : nat) (l : list nat) : list nat :=
  filter (fun y => negb (Nat.eqb x y)) l.

(** [subscribeToState(callback)]: registers, and returns the closure that
    deletes that callback; the closure is [unsubscribe callback]. *)
Definition unsubscribe (callback : nat) : M unit :=
  fun w => (Ok tt, set_subscribers (set_delete callback (subscribers w)) w).

Definition subscribeToState (callback : nat) : M (M unit) :=
  fun w => (Ok (unsubscribe callback),
            set_subscribers (set_add callback (subscribers w)) w).

Definition clearPersistedState : M unit :=
  fun w => (Ok tt, if storageWorks w then set_storage NoItem w else w).

Definition getSessionKey : M (option (list ascii)) := fun w => (Ok (sessionKey (state w)), w).
Definition getIsActive : M bool := fun w => (Ok (isActive (state w)), w).
Definition getBalance : M (option Balance) := fun w => (Ok (balance (state w)), w).
Definition getIsLoading : M bool := fun w => (Ok (isLoading (state w)), w).
Definition getError : M (option JsError) := fun w => (Ok (error (state w)), w).

(** Object literals passed to [updateState], built key by key. *)
Definition withSessionKey (k : option (list ascii)) (p : Partial) : Partial :=
  {| p_sessionKey := Some k; p_isActive := p_isActive p; p_balance := p_balance p;
     p_isLoading := p_isLoading p; p_error := p_error p |}.
Definition withIsActive (a : bool) (p : Partial) : Partial :=
  {| p_sessionKey := p_sessionKey p; p_isActive := Some a; p_balance := p_balance p;
     p_isLoading := p_isLoading p; p_error := p_error p |}.
Definition withBalance (b : option Balance) (p : Partial) : Partial :=
  {| p_sessionKey := p_sessionKey p; p_isActive := p_isActive p; p_balance := Some b;
     p_isLoading := p_isLoading p; p_error := p_error p |}.
Definition withIsLoading (l : bool) (p : Partial) : Partial :=
  {| p_sessionKey := p_sessionKey p; p_isActive := p_isActive p; p_balance := p_balance p;
     p_isLoading := Some l; p_error := p_error p |}.
Definition withError (e : option JsError) (p : Partial) : Partial :=
  {| p_sessionKey := p_sessionKey p; p_isActive := p_isActive p; p_balance := p_balance p;
     p_isLoading := p_isLoading p; p_error := Some e |}.

(** [{ isLoading: true, error: null }], the update every operation starts
    with, and [{ error: err, isLoading: false }], the one of every [catch]. *)
Definition loadingUpdate : Partial := withIsLoading true (withError None no_update).
Definition failureUpdate (err : JsError) : Partial :=
  withError (Some err) (withIsLoading false no_update).

(** JavaScript truthiness of a provider value. *)
Definition truthy (v : JsVal) : bool :=
  match v with
  | VNull => false
  | VStr [] => false
  | VStr (_ :: _) | VObj | VFee _ _ => true
  end.

Definition truthy_str (o : option (list ascii)) : bool :=
  match o with
  | Some (_ :: _) => true
  | Some [] | None => false
  end.

(** Truthiness of an optional number: [undefined] and 0 are falsy. *)
Definition truthy_num (o : option Z) : bool :=
  match o with
  | Some n => negb (n =? 0)
  | None => false
  end.

Definition ZERO_WORD : list ascii :=
  lit "0x0000000000000000000000000000000000000000000000000000000000000000".

(** [v === '0x00...00'] *)
Definition is_zero_word (v : JsVal) : bool :=
  match v with
  | VStr s => str_eqb s ZERO_WORD
  | _ => false
  end.

(** ['0x' + v.slice(-40)]; [slice] is no function on a value that is no
    string, and the call throws a TypeError. *)
Definition extractAddress (v : JsVal) : Result (list ascii) :=
  match v with
  | VStr s => Ok (lit "0x" ++ slice_last 40 s)
  | _ => Throw typeError
  end.

Definition wrongNetwork : JsError :=
  MkError (lit "Session Keys is only for TEN chain, please add or switch to TEN.").
Definition noSessionKey : JsError :=
  MkError (lit "No active session key. Create and activate a session key first.").
Definition creationFailed : JsError :=
  MkError (lit "Failed to create session key - both creation and retrieval returned empty response").

Section Core.
Context {K : Constants}.

(** [checkTenNetwork], the same function in core/sessionKey.ts and in
    core/transaction.ts. *)
Definition checkTenNetwork (provider : EIP1193Provider) : M unit :=
  chainId <- request provider eth_chainId ;;
  let chainIdInt := parseInt16 chainId in
  match chainIdInt with
  | Some c => if c =? TEN_CHAIN_ID then ret tt else throw (ThrowError wrongNetwork)
  | None => throw (ThrowError wrongNetwork)
  end.

(** ** core/sessionKey.ts *)

Definition handleDisconnect : M unit :=
  updateState (withIsActive false
    (withError (Some (MkError (lit "Provider disconnected"))) no_update)).

Definition handleChainChanged : M unit :=
  updateState (withIsActive false
    (withError (Some (MkError (lit "Chain changed"))) no_update)).

(** Detaches the previous pair of listeners, attaches a new pair. *)
Definition setupProviderListeners (provider : EIP1193Provider) : M unit :=
  fun w => (Ok tt, set_listening true w).

(** The [catch] block every operation ends with. *)
Definition catchBlock {A} (msg : string) (thrown : Thrown) : M A :=
  let err := asError thrown msg in
  updateState (failureUpdate err) ;;;
  throw (ThrowError err).

Definition createSessionKey (provider : EIP1193Provider) : M (list ascii) :=
  try_catch
    (updateState loadingUpdate ;;;
     setupProviderListeners provider ;;;
     checkTenNetwork provider ;;;
     response <- request provider
       (eth_getStorageAt (SESSION_KEY_CREATE TEN_ADDRESSES) (lit "0x0")) ;;
     if negb (truthy response) || is_zero_word response then
       existingKey <- request provider
         (eth_getStorageAt (SESSION_KEY_RETRIEVE TEN_ADDRESSES) (lit "0x0")) ;;
       if truthy existingKey && negb (is_zero_word existingKey) then
         sessionKeyAddress <- lift (extractAddress existingKey) ;;
         updateState (withSessionKey (Some sessionKeyAddress)
                        (withIsLoading false no_update)) ;;;
         ret sessionKeyAddress
       else throw (ThrowError creationFailed)
     else
       sessionKeyAddress <- lift (extractAddress response) ;;
       updateState (withSessionKey (Some sessionKeyAddress)
                      (withIsLoading false no_update)) ;;;
       ret sessionKeyAddress)
    (catchBlock "Unknown error").

(** [checkTx]: asks for the receipt and, without one, asks again after two
    seconds.  [fuel] counts the requests the run is allowed; [None] is a run
    that is still polling when they are used up. *)
Fixpoint checkTx (fuel : nat) (provider : EIP1193Provider) (txHash : JsVal)
    (w : World) : option (Result JsVal * World) :=
  match fuel with
  | O => None
  | S fuel' =>
      match request provider (eth_getTransactionReceipt txHash) w with
      | (Ok receipt, w') =>
          if truthy receipt then Some (Ok receipt, w')
          else checkTx fuel' provider txHash w'
      | (Throw t, w') => Some (Throw t, w')
      end
  end.

Definition fundSessionKey (fuel : nat) (sessionKeyAddress amount : list ascii)
    (provider : EIP1193Provider) (userAddress : list ascii)
    (w : World) : option (Result JsVal * World) :=
  let sent :=
    (updateState loadingUpdate ;;;
     checkTenNetwork provider ;;;
     valueInWei <- lift (parseEther amount) ;;
     let valueHex := toHex valueInWei in
     request provider (eth_sendTransaction sessionKeyAddress valueHex userAddress)) w in
  match sent with
  | (Throw t, w1) => Some (catchBlock "Unknown error" t w1)
  | (Ok txHash, w1) =>
      match checkTx fuel provider txHash w1 with
      | None => None
      | Some (Throw t, w2) => Some (catchBlock "Unknown error" t w2)
      | Some (Ok _, w2) =>
          Some ((updateState (withIsLoading false no_update) ;;; ret txHash) w2)
      end
  end.

Definition activateSessionKey (provider : EIP1193Provider) : M unit :=
  try_catch
    (updateState loadingUpdate ;;;
     checkTenNetwork provider ;;;
     request provider
       (eth_getStorageAt (SESSION_KEY_ACTIVATE TEN_ADDRESSES) (lit "0x0")) ;;;
     updateState (withIsActive true (withIsLoading false no_update)))
    (catchBlock "Activation failed").

Definition deactivateSessionKey (provider : EIP1193Provider) : M unit :=
  try_catch
    (updateState loadingUpdate ;;;
     checkTenNetwork provider ;;;
     request provider
       (eth_getStorageAt (SESSION_KEY_DEACTIVATE TEN_ADDRESSES) (lit "0x0")) ;;;
     updateState (withIsActive false (withIsLoading false no_update)))
    (catchBlock "Deactivation failed").

(** [{ sessionKey: null, isActive: false, balance: null, isLoading: false }] *)
Definition resetUpdate : Partial :=
  withSessionKey None (withIsActive false (withBalance None
    (withIsLoading false no_update))).

Definition deleteSessionKey (provider : EIP1193Provider) : M unit :=
  try_catch
    (updateState loadingUpdate ;;;
     checkTenNetwork provider ;;;
     request provider
       (eth_getStorageAt (SESSION_KEY_DELETE TEN_ADDRESSES) (lit "0x0")) ;;;
     clearPersistedState ;;;
     (fun w => (Ok tt, set_listening false w)) ;;;
     updateState resetUpdate)
    (catchBlock "Deletion failed").

Definition cleanupSessionKey (provider : EIP1193Provider) : M unit :=
  try_catch
    (updateState loadingUpdate ;;;
     checkTenNetwork provider ;;;
     request provider
       (eth_getStorageAt (SESSION_KEY_DEACTIVATE TEN_ADDRESSES) (lit "0x0")) ;;;
     request provider
       (eth_getStorageAt (SESSION_KEY_DELETE TEN_ADDRESSES) (lit "0x0")) ;;;
     updateState resetUpdate)
    (catchBlock "Cleanup failed").

End Core.

(** ** core/transaction.ts *)

Record GasFees := {
  fees_maxFeePerGas : Z;
  fees_maxPriorityFeePerGas : Z
}.

Definition priorityFeeIndex (priority : Priority) : nat :=
  match priority with LOW => 0 | HIGH => 2 | MEDIUM => 1 end.

(** [BigInt(Math.floor(Number(baseFee) * multiplier))]; the product is
    taken exactly, the rounding of the double product is not modelled. *)
Definition scaleBaseFee (baseFee : Z) (multiplier : Q) : Z :=
  Qfloor (Qmult (inject_Z baseFee) multiplier).

(** [arr[arr.length - 1]]; [None] is [undefined]. *)
Definition last_elem {A} (l : list A) : option A := nth_error l (length l - 1).

(** [BigInt(x)] for an array element that may be [undefined]. *)
Definition BigInt_of_entry (o : option (list ascii)) : Result Z :=
  match o with
  | Some s => BigInt_of_string s
  | None => Throw typeError
  end.

(** [toHex(n)] for a number that may be [NaN]. *)
Definition toHex_number (n : option Z) : Result (list ascii) :=
  match BigInt_of_number n with
  | Ok z => Ok (toHex z)
  | Throw t => Throw t
  end.

(** The [map] over [txArray]: a string that does not start with [0x] gets
    the prefix. *)
Definition ensure0x (s : list ascii) : list ascii :=
  if startsWith (lit "0x") s then s else lit "0x" ++ s.

(** [txParams.value?.toLowerCase() || '0x0'] and
    [txParams.data?.toLowerCase() || '0x'] *)
Definition valueField (txParams : TransactionParams) : list ascii :=
  match value txParams with
  | Some (c :: v) => toLowerCase (c :: v)
  | Some [] | None => lit "0x0"
  end.

Definition dataField (txParams : TransactionParams) : list ascii :=
  match data txParams with
  | c :: d => toLowerCase (c :: d)
  | [] => lit "0x"
  end.

(** [txParams.value || '0x0'] *)
Definition valueOrZero (txParams : TransactionParams) : list ascii :=
  match value txParams with
  | Some (c :: v) => c :: v
  | Some [] | None => lit "0x0"
  end.

(** The twelve entries of [txArray] after the [map], given the text of the
    nonce entry. *)
Definition txArray (chainIdHex nonceHex : list ascii)
    (maxPriorityFeePerGas_ maxFeePerGas_ : Z) (gasLimitHex : list ascii)
    (txParams : TransactionParams) : list RlpInput :=
  [ RStr (ensure0x chainIdHex);
    RStr (ensure0x nonceHex);
    RStr (ensure0x (toHex maxPriorityFeePerGas_));
    RStr (ensure0x (toHex maxFeePerGas_));
    RStr (ensure0x gasLimitHex);
    RStr (ensure0x (toLowerCase (to txParams)));
    RStr (ensure0x (valueField txParams));
    RStr (ensure0x (dataField txParams));
    RList [];
    RStr (ensure0x (lit "0x"));
    RStr (ensure0x (lit "0x"));
    RStr (ensure0x (lit "0x")) ].

(** [bytes.map(byte => byte.toString(16).padStart(2, '0')).join('')] *)
Definition rlpHexOf (bytes : list Z) : list ascii := concat (map hex2 bytes).

Section Builder.
Context {K : Constants}.

(** [sendTransaction].  The two copies of the function differ in two
    places only, which are arguments here: how the fees are computed when
    the caller gives none, and the text of the nonce entry. *)
Definition sendTransactionWith
    (calculateGasFees : EIP1193Provider -> Priority -> M GasFees)
    (nonceEntry : option Z -> Result (list ascii))
    (txParams : TransactionParams) (provider : EIP1193Provider) : M JsVal :=
  try_catch
    (updateState loadingUpdate ;;;
     checkTenNetwork provider ;;;
     sessionKeyAddress <- getSessionKey ;;
     match sessionKeyAddress with
     | None | Some [] => throw (ThrowError noSessionKey)
     | Some (c0 :: addr) =>
         let sessionKeyAddress := c0 :: addr in
         chainId <- request provider eth_chainId ;;
         let chainIdInt := parseInt16 chainId in
         nonce_ <-
           match nonce txParams with
           | Some n => ret (Some n)
           | None =>
               nonceHex <- request provider (eth_getTransactionCount sessionKeyAddress) ;;
               ret (parseInt16 nonceHex)
           end ;;
         gasFees <-
           (if truthy_str (maxFeePerGas txParams)
               && truthy_str (maxPriorityFeePerGas txParams) then
              maxFee <- lift (BigInt_of_entry (maxFeePerGas txParams)) ;;
              maxPriority <- lift (BigInt_of_entry (maxPriorityFeePerGas txParams)) ;;
              ret {| fees_maxFeePerGas := maxFee;
                     fees_maxPriorityFeePerGas := maxPriority |}
            else calculateGasFees provider MEDIUM) ;;
         gasLimit_ <-
           (if truthy_num (gasLimit txParams) then ret (gasLimit txParams)
            else
              gasEstimate <- request provider
                (eth_estimateGas (to txParams) (data txParams)
                   (valueOrZero txParams) sessionKeyAddress) ;;
              ret (parseInt16 gasEstimate)) ;;
         chainIdHex <- lift (toHex_number chainIdInt) ;;
         nonceHex <- lift (nonceEntry nonce_) ;;
         gasLimitHex <- lift (toHex_number gasLimit_) ;;
         let fields := txArray chainIdHex nonceHex
                         (fees_maxPriorityFeePerGas gasFees)
                         (fees_maxFeePerGas gasFees) gasLimitHex txParams in
         rlpEncoded <- lift (rlpEncode (RList fields)) ;;
         let rlpHex := rlpHexOf rlpEncoded in
         let txBytes := 2 :: hexToBytes (lit "0x" ++ rlpHex) in
         let txBase64 := btoa txBytes in
         txHash <- request provider
           (eth_getStorageAt (SESSION_KEY_EXECUTE TEN_ADDRESSES) txBase64) ;;
         updateState (withIsLoading false no_update) ;;;
         ret txHash
     end)
    (catchBlock "Transaction failed").

End Builder.

(** core/transaction.ts as it stands in the source tree. *)
Module Transaction.
Section WithConstants.
Context {K : Constants}.

Definition calculateGasFees (provider : EIP1193Provider) (priority : Priority)
    : M GasFees :=
  feeHistory <- request provider
    (eth_feeHistory (FEE_HISTORY_BLOCKS DEFAULT_GAS_SETTINGS)
                    (PRIORITY_FEE_PERCENTILES DEFAULT_GAS_SETTINGS)) ;;
  match feeHistory with
  | VFee (Some baseFees) reward =>
      baseFee <- lift (BigInt_of_entry (last_elem baseFees)) ;;
      match reward with
      | Some rows =>
          match last_elem rows with
          | Some row =>
              maxPriority <- lift (BigInt_of_entry
                                     (nth_error row (priorityFeeIndex priority))) ;;
              let multiplier := BASE_FEE_MULTIPLIERS DEFAULT_GAS_SETTINGS priority in
              ret {| fees_maxFeePerGas := scaleBaseFee baseFee multiplier + maxPriority;
                     fees_maxPriorityFeePerGas := maxPriority |}
          | None => throw typeError
          end
      | None => throw typeError
      end
  | _ => throw typeError
  end.

Definition sendTransaction : TransactionParams -> EIP1193Provider -> M JsVal :=
  sendTransactionWith calculateGasFees toHex_number.

End WithConstants.
End Transaction.

(** The copy of core/transaction.ts that asks for no reward percentiles and
    catches a failed fee computation. *)
Module TransactionVariant.
Section WithConstants.
Context {K : Constants}.

(** [feeHistory?.baseFeePerGas?.[0]] when it is truthy. *)
Definition firstBaseFee (feeHistory : JsVal) : option (list ascii) :=
  match feeHistory with
  | VFee (Some ((c :: s) :: _)) _ => Some (c :: s)
  | _ => None
  end.

Definition fixedPriorityFee : Z := 100000000.
Definition fixedBaseFee : Z := 1000000000.

Definition calculateGasFees (provider : EIP1193Provider) (priority : Priority)
    : M GasFees :=
  try_catch
    (feeHistory <- request provider (eth_feeHistory 1 []) ;;
     match firstBaseFee feeHistory with
     | None => throw (ThrowError (MkError (lit "Invalid fee history response")))
     | Some entry =>
         baseFee <- lift (BigInt_of_string entry) ;;
         let priorityFeePerGas := fixedPriorityFee in
         let multiplier := BASE_FEE_MULTIPLIERS DEFAULT_GAS_SETTINGS priority in
         ret {| fees_maxFeePerGas := scaleBaseFee baseFee multiplier + priorityFeePerGas;
                fees_maxPriorityFeePerGas := priorityFeePerGas |}
     end)
    (fun _ =>
       let baseFeePerGas := fixedBaseFee in
       let priorityFeePerGas := fixedPriorityFee in
       let multiplier := BASE_FEE_MULTIPLIERS DEFAULT_GAS_SETTINGS priority in
       ret {| fees_maxFeePerGas := scaleBaseFee baseFeePerGas multiplier + priorityFeePerGas;
              fees_maxPriorityFeePerGas := priorityFeePerGas |}).

(** [nonce === 0 ? '0x' : toHex(nonce)] *)
Definition nonceEntry (n : option Z) : Result (list ascii) :=
  match n with
  | Some 0 => Ok (lit "0x")
  | _ => toHex_number n
  end.

Definition sendTransaction : TransactionParams -> EIP1193Provider -> M JsVal :=
  sendTransactionWith calculateGasFees nonceEntry.

End WithConstants.
End TransactionVariant.

(** ** Vocabulary of the properties *)

(** The keys of the state record, and a key's value whatever its type. *)
Inductive Field := FSessionKey | FIsActive | FBalance | FIsLoading | FError.

Inductive FieldValue :=
| ValSessionKey (v : option (list ascii))
| ValIsActive (v : bool)
| ValBalance (v : option Balance)
| ValIsLoading (v : bool)
| ValError (v : option JsError).

Definition allFields : list Field :=
  [FSessionKey; FIsActive; FBalance; FIsLoading; FError].

(** [state[f]] *)
Definition field (f : Field) (s : SessionKeyState) : FieldValue :=
  match f with
  | FSessionKey => ValSessionKey (sessionKey s)
  | FIsActive => ValIsActive (isActive s)
  | FBalance => ValBalance (balance s)
  | FIsLoading => ValIsLoading (isLoading s)
  | FError => ValError (error s)
  end.

(** [updates[f]] when [f in updates]. *)
Definition named (f : Field) (updates : Partial) : option FieldValue :=
  match f with
  | FSessionKey => option_map ValSessionKey (p_sessionKey updates)
  | FIsActive => option_map ValIsActive (p_isActive updates)
  | FBalance => option_map ValBalance (p_balance updates)
  | FIsLoading => option_map ValIsLoading (p_isLoading updates)
  | FError => option_map ValError (p_error updates)
  end.

Definition touches (f : Field) (updates : Partial) : bool := is_some (named f updates).

(** The updates of a list name pairwise disjoint keys: no key is named by
    two of them. *)
Definition disjointUpdates (us : list Partial) : bool :=
  forallb (fun f => (length (filter (touches f) us) <=? 1)%nat) allFields.

(** [updateState] called once per element, in order. *)
Definition runUpdates (us : list Partial) (w : World) : World :=
  fold_left (fun w updates => snd (updateState updates w)) us w.

(** The notifications a run added, and how many of them went to [callback]. *)
Definition delivered (w w' : World) : list (nat * SessionKeyState) :=
  skipn (length (notifications w)) (notifications w').

Definition timesNotified (callback : nat) (l : list (nat * SessionKeyState)) : nat :=
  length (filter (fun n => Nat.eqb (fst n) callback) l).

(** The requests a run sent, and those of them that are actuation calls. *)
Definition issued (w w' : World) : list Request :=
  skipn (length (requests w)) (requests w').

Definition isActuation (r : Request) : bool :=
  match r with
  | eth_getStorageAt _ _ => true
  | _ => false
  end.

Definition actuations (l : list Request) : list Request := filter isActuation l.

(** [isActive] implies a session key. *)
Definition keyWhenActive (s : SessionKeyState) : bool :=
  implb (isActive s) (is_some (sessionKey s)).

(** A run that fails with the error [e] after the chain-id query alone: the
    error is thrown and stored, and no other request was sent. *)
Definition rejectedAs {A} (e : JsError) (w : World) (r : Result A * World) : Prop :=
  fst r = Throw (ThrowError e) /\
  issued w (snd r) = [eth_chainId] /\
  actuations (issued w (snd r)) = [] /\
  error (state (snd r)) = Some e /\
  isLoading (state (snd r)) = false.

Section Chain.
Context {K : Constants}.

(** What the provider reports when asked for the chain id at a given log:
    another chain than TEN's (a text that is no number included), or TEN's. *)
Definition reportsWrongChain (provider : EIP1193Provider) (log : list Request) : bool :=
  match provider log eth_chainId with
  | Ok v => match parseInt16 v with
            | Some c => negb (c =? TEN_CHAIN_ID)
            | None => true
            end
  | Throw _ => false
  end.

Definition reportsTenChain (provider : EIP1193Provider) (log : list Request) : bool :=
  match provider log eth_chainId with
  | Ok v => match parseInt16 v with
            | Some c => c =? TEN_CHAIN_ID
            | None => false
            end
  | Throw _ => false
  end.

End Chain.



(** The log once [k] receipt requests for [txHash] have been added to it. *)
Definition afterPolls (log : list Request) (txHash : JsVal) (k : nat) : list Request :=
  log ++ repeat (eth_getTransactionReceipt txHash) k.

(** The provider has no receipt at any of the first [n] receipt requests
    sent from [log], and rejects none of them. *)
Fixpoint noReceiptFor (provider : EIP1193Provider) (log : list Request)
    (txHash : JsVal) (n : nat) : bool :=
  match n with
  | O => true
  | S n' =>
      match provider log (eth_getTransactionReceipt txHash) with
      | Ok v =>
          negb (truthy v)
          && noReceiptFor provider (log ++ [eth_getTransactionReceipt txHash]) txHash n'
      | Throw _ => false
      end
  end.

(** What a client of the library can do, one call after the other: the
    exported operations, and the two provider events while listeners are
    attached. *)
Inductive Call :=
| CallCreate (provider : EIP1193Provider)
| CallFund (fuel : nat) (address amount : list ascii)
           (provider : EIP1193Provider) (user : list ascii)
| CallActivate (provider : EIP1193Provider)
| CallDeactivate (provider : EIP1193Provider)
| CallDelete (provider : EIP1193Provider)
| CallCleanup (provider : EIP1193Provider)
| CallSend (txParams : TransactionParams) (provider : EIP1193Provider)
| CallSendVariant (txParams : TransactionParams) (provider : EIP1193Provider)
| CallSubscribe (callback : nat)
| CallUnsubscribe (callback : nat)
| EventDisconnect
| EventChainChanged.

Section Runs.
Context {K : Constants}.

(** The world a call leaves; [None] when a funding poll is out of fuel, or
    an event has no listener. *)
Definition exec (c : Call) (w : World) : option World :=
  match c with
  | CallCreate provider => Some (snd (createSessionKey provider w))
  | CallFund fuel address amount provider user =>
      option_map snd (fundSessionKey fuel address amount provider user w)
  | CallActivate provider => Some (snd (activateSessionKey provider w))
  | CallDeactivate provider => Some (snd (deactivateSessionKey provider w))
  | CallDelete provider => Some (snd (deleteSessionKey provider w))
  | CallCleanup provider => Some (snd (cleanupSessionKey provider w))
  | CallSend txParams provider =>
      Some (snd (Transaction.sendTransaction txParams provider w))
  | CallSendVariant txParams provider =>
      Some (snd (TransactionVariant.sendTransaction txParams provider w))
  | CallSubscribe callback => Some (snd (subscribeToState callback w))
  | CallUnsubscribe callback => Some (snd (unsubscribe callback w))
  | EventDisconnect =>
      if listening w then Some (snd (handleDisconnect w)) else None
  | EventChainChanged =>
      if listening w then Some (snd (handleChainChanged w)) else None
  end.

(** The ordering the invariant rests on: activation is asked for only
    while the state holds a session key. *)
Definition inOrder (c : Call) (w : World) : bool :=
  match c with
  | CallActivate _ => is_some (sessionKey (state w))
  | _ => true
  end.

(** The worlds reached from a start whose persisted item, if any, does not
    say active without a key, by calls made in order. *)
Inductive reachableInOrder : World -> Prop :=
| reach_start (st : Stored) (works : bool) :
    keyWhenActive (loadState st works) = true ->
    reachableInOrder (initialWorld st works)
| reach_call (c : Call) (w w' : World) :
    reachableInOrder w -> inOrder c w = true -> exec c w = Some w' ->
    reachableInOrder w'.

End Runs.

(** An update that cannot break "active implies a key": it does not set
    [isActive] to [true] unless it sets a key, and does not clear the key
    unless it sets [isActive] to [false]. *)
Definition safeUpdate (updates : Partial) : bool :=
  match p_isActive updates, p_sessionKey updates with
  | Some true, Some (Some _) => true
  | Some true, _ => false
  | Some false, _ => true
  | None, Some None => false
  | None, _ => true
  end.

(** An update that leaves the session key alone. *)
Definition keepsKey (updates : Partial) : bool := negb (is_some (p_sessionKey updates)).

(** A computation keeps a property of the state record. *)
Definition preserves {A} (P : SessionKeyState -> Prop) (m : M A) : Prop :=
  forall w, P (state w) -> P (state (snd (m w))).

(** The two properties of the state record the invariant is proved with. *)
Definition ActiveHasKey (s : SessionKeyState) : Prop := keyWhenActive s = true.
Definition HasKey (s : SessionKeyState) : Prop := is_some (sessionKey s) = true.

Section Fees.
Context {K : Constants}.







(** The request that submits the encoded transaction. *)
Definition executeRequest (rlpEncoded : list Z) : Request :=
  eth_getStorageAt (SESSION_KEY_EXECUTE TEN_ADDRESSES)
    (btoa (2 :: hexToBytes (lit "0x" ++ rlpHexOf rlpEncoded))).

End Fees.

(** The value transfer [fundSessionKey] sends from the user's address, and
    the world in which its confirmation poll starts: the first update is
    applied, the chain-id query and the transfer are in the log. *)
Definition fundingTransfer (address : list ascii) (wei : Z) (user : list ascii) : Request :=
  eth_sendTransaction address (toHex wei) user.

Definition pollingStart (transfer : Request) (w : World) : World :=
  set_requests (requests w ++ [eth_chainId; transfer]) (snd (updateState loadingUpdate w)).

(** The integer a byte string denotes, most significant byte first, and
    the canonical form of an integer: every byte in range and no leading
    zero byte (so that zero is the empty string). *)
Definition bytes_value (bs : list Z) : Z :=
  fold_left (fun acc b => acc * 256 + b) bs 0.

Definition minimalBytes (bs : list Z) : bool :=
  match bs with
  | [] => true
  | b :: _ => negb (b =? 0)
  end && forallb (fun b => (0 <=? b) && (b <? 256)) bs.

(** ** Sample data for the closed instances *)

(** Sample values for the constants: the chain id is the one the
    specification names, the addresses and multipliers are placeholders. *)
Definition sampleConstants : Constants :=
  {| TEN_ADDRESSES :=
       {| SESSION_KEY_CREATE := lit "0x0000000000000000000000000000000000000003";
          SESSION_KEY_RETRIEVE := lit "0x0000000000000000000000000000000000000004";
          SESSION_KEY_ACTIVATE := lit "0x0000000000000000000000000000000000000005";
          SESSION_KEY_DEACTIVATE := lit "0x0000000000000000000000000000000000000006";
          SESSION_KEY_DELETE := lit "0x0000000000000000000000000000000000000007";
          SESSION_KEY_EXECUTE := lit "0x0000000000000000000000000000000000000008" |};
     TEN_CHAIN_ID := 443;
     DEFAULT_GAS_SETTINGS :=
       {| PRIORITY_FEE_PERCENTILES := [25; 50; 75];
          FEE_HISTORY_BLOCKS := 10;
          BASE_FEE_MULTIPLIERS :=
            fun p => match p with
                     | LOW => Qmake 1 1
                     | MEDIUM => Qmake 6 5
                     | HIGH => Qmake 3 2
                     end |} |}.

Definition sampleKeyWord : list ascii :=
  lit "0x000000000000000000000000742d35cc6635c0532925a3b8d29187cf8b4e87f1".
Definition sampleKey : list ascii :=
  lit "0x742d35cc6635c0532925a3b8d29187cf8b4e87f1".
Definition sampleHash : list ascii :=
  lit "0x9fc76417374aa880d4449a1f7f31ec597f00b1f6f3dd2d66f4c9c6c445836d8b".
Definition sampleUser : list ascii :=
  lit "0x52908400098527886e0f7030069857d2e4169ee7".

(** A provider attached to chain 1. *)
Definition mainnetProvider : EIP1193Provider :=
  fun _ r => match r with
             | eth_chainId => Ok (VStr (lit "0x1"))
             | _ => Ok VNull
             end.

Definition isReceiptRequest (r : Request) : bool :=
  match r with
  | eth_getTransactionReceipt _ => true
  | _ => false
  end.

(** A provider attached to TEN.  Its fee history has a base fee of 2 gwei
    and, when percentiles are asked for, one row of rewards; a receipt is
    there from the [k]-th receipt request on, counted from 0. *)
Definition tenProvider (confirmsAt : option nat) : EIP1193Provider :=
  fun log r =>
    match r with
    | eth_chainId => Ok (VStr (lit "0x1bb"))
    | eth_getTransactionCount _ => Ok (VStr (lit "0x0"))
    | eth_feeHistory _ [] => Ok (VFee (Some [lit "0x77359400"]) None)
    | eth_feeHistory _ (_ :: _) =>
        Ok (VFee (Some [lit "0x77359400"])
                 (Some [[lit "0x5f5e100"; lit "0xbebc200"; lit "0x11e1a300"]]))
    | eth_estimateGas _ _ _ _ => Ok (VStr (lit "0x5208"))
    | eth_getStorageAt _ s =>
        if str_eqb s (lit "0x0") then Ok (VStr sampleKeyWord) else Ok (VStr sampleHash)
    | eth_sendTransaction _ _ _ => Ok (VStr sampleHash)
    | eth_getTransactionReceipt _ =>
        match confirmsAt with
        | Some k => if (k <=? length (filter isReceiptRequest log))%nat
                    then Ok VObj else Ok VNull
        | None => Ok VNull
        end
    | eth_getBalance _ => Ok (VStr (lit "0x0"))
    end.


(** The same provider with a deactivation call that is rejected. *)
Definition noDeactivateProvider : EIP1193Provider :=
  fun log r =>
    match r with
    | eth_getStorageAt a _ =>
        if str_eqb a (SESSION_KEY_DEACTIVATE (@TEN_ADDRESSES sampleConstants))
        then Throw (ThrowError (MkError (lit "execution reverted")))
        else tenProvider None log r
    | _ => tenProvider None log r
    end.

Definition freshWorld : World := initialWorld NoItem true.

(** A world with a session key that was created and not activated. *)
Definition keyedWorld : World :=
  set_state {| sessionKey := Some sampleKey; isActive := false; balance := None;
               isLoading := false; error := None |} freshWorld.

(** [{ to, data: '0x', nonce: 0 }] *)
Definition sampleTx : TransactionParams :=
  {| to := lit "0x52908400098527886E0F7030069857D2E4169EE7";
     data := lit "0x";
     value := None;
     nonce := Some 0;
     gasLimit := None;
     maxFeePerGas := None;
     maxPriorityFeePerGas := None |}.




(** * Properties *)

(** ** State store *)

Lemma merge_named_none (f : Field) (s : SessionKeyState) (updates : Partial) :
  named f updates = None -> field f (merge s updates) = field f s.
Proof.
  destruct updates as [k a b l e]; destruct f; simpl;
    [destruct k | destruct a | destruct b | destruct l | destruct e];
    simpl; intros H; try discriminate; reflexivity.
Qed.

Lemma merge_named_some (f : Field) (s : SessionKeyState) (updates : Partial) (v : FieldValue) :
  named f updates = Some v -> field f (merge s updates) = v.
Proof.
  destruct updates as [k a b l e]; destruct f; simpl;
    [destruct k | destruct a | destruct b | destruct l | destruct e];
    simpl; intros H; inversion H; reflexivity.
Qed.

Lemma updateState_state (updates : Partial) (w : World) :
  state (snd (updateState updates w)) = merge (state w) updates.
Proof.
  unfold updateState; simpl.
  destruct (is_some (p_sessionKey updates) || is_some (p_isActive updates));
    [destruct (storageWorks w) |]; reflexivity.
Qed.

Lemma updateState_requests (updates : Partial) (w : World) :
  requests (snd (updateState updates w)) = requests w.
Proof.
  unfold updateState; simpl.
  destruct (is_some (p_sessionKey updates) || is_some (p_isActive updates));
    [destruct (storageWorks w) |]; reflexivity.
Qed.

Lemma updateState_ok (updates : Partial) (w : World) :
  fst (updateState updates w) = Ok tt.
Proof. reflexivity. Qed.

Lemma runUpdates_app (us vs : list Partial) (w : World) :
  runUpdates (us ++ vs) w = runUpdates vs (runUpdates us w).
Proof. unfold runUpdates; apply fold_left_app. Qed.

Lemma runUpdates_untouched (f : Field) (us : list Partial) :
  forall w, filter (touches f) us = [] ->
            field f (state (runUpdates us w)) = field f (state w).
Proof.
  induction us as [|u us IH]; intros w H; simpl in *; [reflexivity|].
  destruct (touches f u) eqn:E; [discriminate|].
  change (field f (state (runUpdates us (snd (updateState u w)))) = field f (state w)).
  rewrite IH by assumption.
  rewrite updateState_state. apply merge_named_none.
  unfold touches in E. destruct (named f u); [discriminate | reflexivity].
Qed.

Lemma disjointUpdates_field (f : Field) (us : list Partial) :
  disjointUpdates us = true -> (length (filter (touches f) us) <= 1)%nat.
Proof.
  unfold disjointUpdates, allFields; simpl.
  rewrite !andb_true_iff, !Nat.leb_le.
  intros (H1 & H2 & H3 & H4 & H5 & _); destruct f; assumption.
Qed.

(** C9: every state field that an [updateState] partial does not name keeps
    its value; and after a sequence of updates that name pairwise disjoint
    fields, each named field holds the value its update wrote, so that no
    update is lost. *)
Theorem updateState_keeps_unnamed_fields (us : list Partial) (w : World)
    (Hdisjoint : disjointUpdates us = true) :
  (forall (updates : Partial) (w0 : World) (f : Field),
      named f updates = None ->
      field f (state (snd (updateState updates w0))) = field f (state w0))
  /\
  (forall (u : Partial) (f : Field) (v : FieldValue),
      In u us -> named f u = Some v ->
      field f (state (runUpdates us w)) = v).
Proof.
  split.
  - intros updates w0 f Hn. rewrite updateState_state. now apply merge_named_none.
  - intros u f v Hin Hv.
    destruct (in_split _ _ Hin) as (l1 & l2 & ->).
    pose proof (disjointUpdates_field f _ Hdisjoint) as Hlen.
    assert (Ht : touches f u = true) by (unfold touches; now rewrite Hv).
    rewrite filter_app in Hlen; simpl in Hlen; rewrite Ht in Hlen.
    rewrite length_app in Hlen; simpl in Hlen.
    assert (H2 : filter (touches f) l2 = []).
    { destruct (filter (touches f) l2); [reflexivity | simpl in Hlen; lia]. }
    rewrite runUpdates_app.
    change (runUpdates (u :: l2) (runUpdates l1 w))
      with (runUpdates l2 (snd (updateState u (runUpdates l1 w)))).
    rewrite runUpdates_untouched by assumption.
    rewrite updateState_state. now apply merge_named_some.
Qed.

Lemma updateState_keeps_unnamed_fields_witness :
  let us := [withIsLoading true no_update;
             withSessionKey (Some (lit "0xabc")) no_update;
             withIsActive true no_update] in
  disjointUpdates us = true /\
  field FSessionKey (state (runUpdates us (initialWorld NoItem true)))
    = ValSessionKey (Some (lit "0xabc")).
Proof.
  intros us. split; [reflexivity|].
  apply (proj2 (updateState_keeps_unnamed_fields us (initialWorld NoItem true)
                  (eq_refl true)))
    with (u := withSessionKey (Some (lit "0xabc")) no_update);
    [simpl; auto | reflexivity].
Defined.

Lemma existsb_eqb_In (x : nat) (l : list nat) :
  existsb (Nat.eqb x) l = true <-> In x l.
Proof.
  rewrite existsb_exists; split.
  - intros (y & Hy & E). apply Nat.eqb_eq in E. now subst.
  - intros H. exists x. split; [assumption | apply Nat.eqb_refl].
Qed.

Lemma set_add_In (x : nat) (l : list nat) : In x (set_add x l).
Proof.
  unfold set_add. destruct (existsb (Nat.eqb x) l) eqn:E.
  - now apply existsb_eqb_In.
  - apply in_or_app; right; now left.
Qed.

Lemma set_add_again (x : nat) (l : list nat) : set_add x (set_add x l) = set_add x l.
Proof.
  unfold set_add at 1.
  now rewrite (proj2 (existsb_eqb_In x (set_add x l)) (set_add_In x l)).
Qed.

Lemma set_add_NoDup (x : nat) (l : list nat) : NoDup l -> NoDup (set_add x l).
Proof.
  intros Hnd. unfold set_add. destruct (existsb (Nat.eqb x) l) eqn:E; [assumption|].
  apply NoDup_app; [assumption | repeat constructor; intros [] | ].
  intros y Hy [<- | []].
  apply existsb_eqb_In in Hy. congruence.
Qed.

Lemma set_delete_not_In (x : nat) (l : list nat) : ~ In x (set_delete x l).
Proof.
  unfold set_delete. rewrite filter_In. intros [_ H].
  now rewrite Nat.eqb_refl in H.
Qed.

Lemma set_delete_again (x : nat) (l : list nat) :
  set_delete x (set_delete x l) = set_delete x l.
Proof.
  unfold set_delete. induction l as [|y l IH]; simpl; [reflexivity|].
  destruct (Nat.eqb x y) eqn:E; simpl; [assumption|].
  rewrite E; simpl. now f_equal.
Qed.

Lemma timesNotified_map (callback : nat) (s : SessionKeyState) (l : list nat) :
  timesNotified callback (map (fun c => (c, s)) l) = count_occ Nat.eq_dec l callback.
Proof.
  unfold timesNotified. induction l as [|y l IH]; simpl; [reflexivity|].
  destruct (Nat.eq_dec y callback) as [->|Hne].
  - rewrite Nat.eqb_refl; simpl. now f_equal.
  - apply Nat.eqb_neq in Hne. now rewrite Hne.
Qed.

Lemma updateState_delivered (updates : Partial) (w : World) :
  delivered w (snd (updateState updates w))
  = map (fun c => (c, merge (state w) updates)) (subscribers w).
Proof.
  unfold delivered, updateState; simpl.
  destruct (is_some (p_sessionKey updates) || is_some (p_isActive updates));
    [destruct (storageWorks w) |]; simpl;
    now rewrite skipn_app, Nat.sub_diag, skipn_all.
Qed.

(** C10: registering the same callback twice leaves one registration, so
    an update notifies it once; either capability returned removes it (no
    notification follows), and using a capability again changes nothing. *)
Theorem subscribe_twice_registers_once (callback : nat) (updates : Partial)
    (w : World) (Hset : NoDup (subscribers w)) :
  let w1 := snd (subscribeToState callback w) in
  let w2 := snd (subscribeToState callback w1) in
  let gone := snd (unsubscribe callback w2) in
  fst (subscribeToState callback w) = Ok (unsubscribe callback) /\
  fst (subscribeToState callback w1) = Ok (unsubscribe callback) /\
  subscribers w2 = subscribers w1 /\
  count_occ Nat.eq_dec (subscribers w2) callback = 1%nat /\
  timesNotified callback (delivered w2 (snd (updateState updates w2))) = 1%nat /\
  ~ In callback (subscribers gone) /\
  timesNotified callback (delivered gone (snd (updateState updates gone))) = 0%nat /\
  snd (unsubscribe callback gone) = gone.
Proof.
  intros w1 w2 gone.
  assert (Hsubs : subscribers w2 = subscribers w1).
  { unfold w2, w1; simpl. apply set_add_again. }
  assert (Hcount : count_occ Nat.eq_dec (subscribers w2) callback = 1%nat).
  { rewrite Hsubs. unfold w1; simpl.
    apply NoDup_count_occ'; [now apply set_add_NoDup | apply set_add_In]. }
  repeat split; try reflexivity; try assumption.
  - now rewrite updateState_delivered, timesNotified_map.
  - unfold gone; simpl. apply set_delete_not_In.
  - rewrite updateState_delivered, timesNotified_map.
    apply count_occ_not_In. unfold gone; simpl. apply set_delete_not_In.
  - unfold gone, unsubscribe; simpl. unfold set_subscribers; simpl.
    now rewrite set_delete_again.
Qed.

Lemma subscribe_twice_registers_once_witness :
  let w := snd (subscribeToState 7%nat (initialWorld NoItem true)) in
  let w2 := snd (subscribeToState 3%nat (snd (subscribeToState 3%nat w))) in
  NoDup (subscribers w) /\
  count_occ Nat.eq_dec (subscribers w2) 3%nat = 1%nat /\
  timesNotified 3%nat (delivered w2 (snd (updateState (withIsLoading true no_update) w2))) = 1%nat.
Proof.
  assert (Hset : NoDup (subscribers (snd (subscribeToState 7%nat (initialWorld NoItem true))))).
  { simpl. repeat constructor; intros []. }
  split; [exact Hset|].
  pose proof (subscribe_twice_registers_once 3%nat (withIsLoading true no_update) _ Hset) as H.
  simpl in H. split; [apply H | apply H].
Defined.

(** ** Running the operations *)

Lemma bind_ok {A B} (m : M A) (k : A -> M B) (w w' : World) (a : A) :
  m w = (Ok a, w') -> bind m k w = k a w'.
Proof. unfold bind; now intros ->. Qed.

Lemma bind_throw {A B} (m : M A) (k : A -> M B) (w w' : World) (t : Thrown) :
  m w = (Throw t, w') -> bind m k w = (Throw t, w').
Proof. unfold bind; now intros ->. Qed.

Lemma bind_updateState {B} (updates : Partial) (k : unit -> M B) (w : World) :
  bind (updateState updates) k w = k tt (snd (updateState updates w)).
Proof. reflexivity. Qed.







Lemma try_catch_throw {A} (m : M A) (h : Thrown -> M A) (w w' : World) (t : Thrown) :
  m w = (Throw t, w') -> try_catch m h w = h t w'.
Proof. unfold try_catch; now intros ->. Qed.

Lemma catchBlock_eq {A} (msg : string) (t : Thrown) (w : World) :
  @catchBlock A msg t w
  = (Throw (ThrowError (asError t msg)),
     snd (updateState (failureUpdate (asError t msg)) w)).
Proof. reflexivity. Qed.

Lemma failureUpdate_state (e : JsError) (w : World) :
  let s := state (snd (updateState (failureUpdate e) w)) in
  error s = Some e /\ isLoading s = false /\
  sessionKey s = sessionKey (state w) /\ isActive s = isActive (state w).
Proof. cbv zeta. rewrite updateState_state. repeat split. Qed.

Lemma issued_app (w w' : World) (l : list Request) :
  requests w' = requests w ++ l -> issued w w' = l.
Proof.
  unfold issued; intros ->. now rewrite skipn_app, Nat.sub_diag, skipn_all.
Qed.

(** An operation whose body throws after its first update ends in its
    [catch] block. *)
Lemma operation_throws {A} (m : M A) (msg : string) (t : Thrown) (w w2 : World) :
  m (snd (updateState loadingUpdate w)) = (Throw t, w2) ->
  try_catch (bind (updateState loadingUpdate) (fun _ => m)) (catchBlock msg) w
  = (Throw (ThrowError (asError t msg)),
     snd (updateState (failureUpdate (asError t msg)) w2)).
Proof.
  intros H. erewrite try_catch_throw; [apply catchBlock_eq|].
  now rewrite bind_updateState.
Qed.

Section ChainFacts.
Context {K : Constants}.

Lemma checkTenNetwork_wrong (provider : EIP1193Provider) (w : World) :
  reportsWrongChain provider (requests w) = true ->
  checkTenNetwork provider w
  = (Throw (ThrowError wrongNetwork), set_requests (requests w ++ [eth_chainId]) w).
Proof.
  unfold reportsWrongChain, checkTenNetwork, bind, request.
  destruct (provider (requests w) eth_chainId) as [v|t]; [|discriminate].
  destruct (parseInt16 v) as [c|]; [|reflexivity].
  destruct (c =? TEN_CHAIN_ID); [discriminate | reflexivity].
Qed.

Lemma checkTenNetwork_ten (provider : EIP1193Provider) (w : World) :
  reportsTenChain provider (requests w) = true ->
  checkTenNetwork provider w
  = (Ok tt, set_requests (requests w ++ [eth_chainId]) w).
Proof.
  unfold reportsTenChain, checkTenNetwork, bind, request.
  destruct (provider (requests w) eth_chainId) as [v|t]; [|discriminate].
  destruct (parseInt16 v) as [c|]; [|discriminate].
  destruct (c =? TEN_CHAIN_ID); [reflexivity | discriminate].
Qed.

(** The shape every rejected run has: the body threw the error in a world
    whose log is the entry log plus the chain-id query. *)
Lemma rejected_after_check {A} (e : JsError) (w w2 : World) (msg : string) :
  requests w2 = requests w ++ [eth_chainId] ->
  @rejectedAs A e w
    (Throw (ThrowError (asError (ThrowError e) msg)),
     snd (updateState (failureUpdate (asError (ThrowError e) msg)) w2)).
Proof.
  intros Hreq. unfold rejectedAs; cbn [fst snd asError].
  assert (Hi : issued w (snd (updateState (failureUpdate e) w2)) = [eth_chainId]).
  { apply issued_app. now rewrite updateState_requests. }
  rewrite Hi. rewrite updateState_state. repeat split.
Qed.

End ChainFacts.

(** ** Network precondition *)

Section WrongNetwork.
Context {K : Constants}.
Variable provider : EIP1193Provider.
Variable w : World.
Hypothesis Hwrong : reportsWrongChain provider (requests w) = true.

Lemma check_rejects_after_first_update {A} (rest : unit -> M A) :
  bind (checkTenNetwork provider) rest (snd (updateState loadingUpdate w))
  = (Throw (ThrowError wrongNetwork),
     set_requests (requests w ++ [eth_chainId]) (snd (updateState loadingUpdate w))).
Proof.
  erewrite bind_throw; [reflexivity|].
  rewrite checkTenNetwork_wrong by (now rewrite updateState_requests).
  now rewrite updateState_requests.
Qed.

Lemma guarded_operation_rejected {A} (rest : unit -> M A) (msg : string) :
  rejectedAs wrongNetwork w
    (try_catch (bind (updateState loadingUpdate)
                  (fun _ => bind (checkTenNetwork provider) rest))
       (catchBlock msg) w).
Proof.
  erewrite operation_throws by apply check_rejects_after_first_update.
  now apply rejected_after_check.
Qed.

Lemma createSessionKey_rejected :
  rejectedAs wrongNetwork w (createSessionKey provider w).
Proof.
  unfold createSessionKey.
  erewrite operation_throws.
  2:{ erewrite bind_ok by reflexivity.
      erewrite bind_throw; [reflexivity|].
      apply checkTenNetwork_wrong. cbn [requests set_listening].
      now rewrite updateState_requests. }
  apply rejected_after_check. cbn [requests set_requests set_listening].
  now rewrite updateState_requests.
Qed.

Lemma fundSessionKey_rejected (fuel : nat) (address amount user : list ascii) :
  exists r, fundSessionKey fuel address amount provider user w = Some r /\
            rejectedAs wrongNetwork w r.
Proof.
  unfold fundSessionKey.
  rewrite bind_updateState, check_rejects_after_first_update.
  eexists; split; [reflexivity|].
  rewrite catchBlock_eq. now apply rejected_after_check.
Qed.

End WrongNetwork.

(** C5: when the provider reports another chain than the target one, each
    of the six lifecycle operations and [sendTransaction] (either copy) fails
    with the wrong-network error, which is stored in the state, and the only
    request sent is the chain-id query: no actuation call is issued. *)
Theorem wrong_network_fails_before_actuation {K : Constants}
    (provider : EIP1193Provider) (w : World)
    (Hwrong : reportsWrongChain provider (requests w) = true) :
  rejectedAs wrongNetwork w (createSessionKey provider w) /\
  (forall fuel address amount user,
      exists r, fundSessionKey fuel address amount provider user w = Some r /\
                rejectedAs wrongNetwork w r) /\
  rejectedAs wrongNetwork w (activateSessionKey provider w) /\
  rejectedAs wrongNetwork w (deactivateSessionKey provider w) /\
  rejectedAs wrongNetwork w (deleteSessionKey provider w) /\
  rejectedAs wrongNetwork w (cleanupSessionKey provider w) /\
  (forall txParams,
      rejectedAs wrongNetwork w (Transaction.sendTransaction txParams provider w)) /\
  (forall txParams,
      rejectedAs wrongNetwork w (TransactionVariant.sendTransaction txParams provider w)).
Proof.
  split; [now apply createSessionKey_rejected|].
  split; [intros; now apply fundSessionKey_rejected|].
  split; [now apply guarded_operation_rejected|].
  split; [now apply guarded_operation_rejected|].
  split; [now apply guarded_operation_rejected|].
  split; [now apply guarded_operation_rejected|].
  split; intros txParams; now apply guarded_operation_rejected.
Qed.

Lemma wrong_network_fails_before_actuation_witness :
  @reportsWrongChain sampleConstants mainnetProvider (requests keyedWorld) = true /\
  rejectedAs wrongNetwork keyedWorld
    (@activateSessionKey sampleConstants mainnetProvider keyedWorld) /\
  rejectedAs wrongNetwork keyedWorld
    (@Transaction.sendTransaction sampleConstants sampleTx mainnetProvider keyedWorld).
Proof.
  split; [reflexivity|].
  pose proof (@wrong_network_fails_before_actuation sampleConstants
                mainnetProvider keyedWorld (eq_refl true)) as H.
  split; [apply H | apply H].
Defined.

(** ** Lifecycle *)

(** C6: when the deactivate call of [cleanupSessionKey] throws, the delete
    call is not issued (the requests sent are the chain-id query and the
    deactivate call), the error thrown to the caller is the one stored in
    the state, it is the thrown value itself when that is an [Error], and
    the session key of the state is what it was at entry. *)
Theorem cleanup_stops_at_failed_deactivate {K : Constants}
    (provider : EIP1193Provider) (w : World) (t : Thrown)
    (Hten : reportsTenChain provider (requests w) = true)
    (Hdeactivate :
       provider (requests w ++ [eth_chainId])
         (eth_getStorageAt (SESSION_KEY_DEACTIVATE TEN_ADDRESSES) (lit "0x0"))
       = Throw t) :
  let r := cleanupSessionKey provider w in
  let err := asError t "Cleanup failed" in
  fst r = Throw (ThrowError err) /\
  (forall e, t = ThrowError e -> fst r = Throw t) /\
  error (state (snd r)) = Some err /\
  sessionKey (state (snd r)) = sessionKey (state w) /\
  issued w (snd r)
    = [eth_chainId;
       eth_getStorageAt (SESSION_KEY_DEACTIVATE TEN_ADDRESSES) (lit "0x0")] /\
  length (actuations (issued w (snd r))) = 1%nat.
Proof.
  intros r err. subst r. unfold cleanupSessionKey.
  erewrite operation_throws.
  2:{ erewrite bind_ok
        by (apply checkTenNetwork_ten; now rewrite updateState_requests).
      erewrite bind_throw; [reflexivity|].
      unfold request. cbn [requests set_requests].
      rewrite updateState_requests, Hdeactivate. reflexivity. }
  cbn [fst snd]. fold err.
  match goal with
  | |- context [updateState (failureUpdate err) ?W] => set (w2 := W)
  end.
  assert (Hreq : requests w2
                 = requests w ++
                   [eth_chainId;
                    eth_getStorageAt (SESSION_KEY_DEACTIVATE TEN_ADDRESSES) (lit "0x0")]).
  { subst w2. cbn [requests set_requests].
    rewrite ?updateState_requests, <- app_assoc. reflexivity. }
  assert (Hkey : sessionKey (state w2) = sessionKey (state w)).
  { subst w2. cbn [state set_requests]. now rewrite updateState_state. }
  assert (Hi : issued w (snd (updateState (failureUpdate err) w2))
               = [eth_chainId;
                  eth_getStorageAt (SESSION_KEY_DEACTIVATE TEN_ADDRESSES) (lit "0x0")]).
  { apply issued_app. now rewrite updateState_requests. }
  rewrite Hi.
  destruct (failureUpdate_state err w2) as (He & _ & Hk & _).
  split; [reflexivity|].
  split; [intros e ->; reflexivity|].
  split; [exact He|].
  split; [now rewrite Hk|].
  split; reflexivity.
Qed.

Lemma cleanup_stops_at_failed_deactivate_witness :
  let r := @cleanupSessionKey sampleConstants noDeactivateProvider keyedWorld in
  fst r = Throw (ThrowError (MkError (lit "execution reverted"))) /\
  sessionKey (state (snd r)) = Some sampleKey /\
  length (actuations (issued keyedWorld (snd r))) = 1%nat.
Proof.
  pose proof (@cleanup_stops_at_failed_deactivate sampleConstants
                noDeactivateProvider keyedWorld
                (ThrowError (MkError (lit "execution reverted")))
                (eq_refl true) (eq_refl _)) as H.
  cbv zeta in H. cbv zeta.
  split; [apply H|]. split; [apply H | apply H].
Defined.

(** ** Transaction builder: the session key check *)

Lemma sendTransactionWith_without_key {K : Constants}
    (calculateGasFees : EIP1193Provider -> Priority -> M GasFees)
    (nonceEntry : option Z -> Result (list ascii))
    (txParams : TransactionParams) (provider : EIP1193Provider) (w : World) :
  reportsTenChain provider (requests w) = true ->
  truthy_str (sessionKey (state w)) = false ->
  rejectedAs noSessionKey w
    (sendTransactionWith calculateGasFees nonceEntry txParams provider w).
Proof.
  intros Hten Hkey. unfold sendTransactionWith.
  erewrite operation_throws.
  2:{ erewrite bind_ok
        by (apply checkTenNetwork_ten; now rewrite updateState_requests).
      unfold bind at 1, getSessionKey. cbn [state set_requests].
      rewrite updateState_state. cbn [sessionKey merge loadingUpdate withIsLoading
        withError no_update p_sessionKey orElse].
      destruct (sessionKey (state w)) as [[|c k]|]; try discriminate; reflexivity. }
  apply rejected_after_check. cbn [requests set_requests].
  now rewrite ?updateState_requests.
Qed.

(** On the target chain and with no session key in the state (none, or the
    empty text), [sendTransaction] (either copy) fails with the
    no-session-key error after the chain-id query alone: nothing is built
    or submitted.  The [isActive] flag is not read. *)
Theorem sendTransaction_needs_stored_key {K : Constants}
    (txParams : TransactionParams) (provider : EIP1193Provider) (w : World)
    (Hten : reportsTenChain provider (requests w) = true)
    (Hkey : truthy_str (sessionKey (state w)) = false) :
  rejectedAs noSessionKey w (Transaction.sendTransaction txParams provider w) /\
  rejectedAs noSessionKey w (TransactionVariant.sendTransaction txParams provider w).
Proof.
  split; now apply sendTransactionWith_without_key.
Qed.

Lemma sendTransaction_needs_stored_key_witness :
  rejectedAs noSessionKey freshWorld
    (@Transaction.sendTransaction sampleConstants sampleTx (tenProvider None) freshWorld).
Proof.
  exact (proj1 (@sendTransaction_needs_stored_key sampleConstants sampleTx
                  (tenProvider None) freshWorld (eq_refl true) (eq_refl false))).
Defined.

(** ** Characters and digits *)

Lemma code_range (c : ascii) : 0 <= code c < 256.
Proof.
  unfold code. pose proof (N_ascii_bounded c). lia.
Qed.

Lemma code_chr (z : Z) : 0 <= z < 256 -> code (chr z) = z.
Proof.
  intros H. unfold code, chr. rewrite N_ascii_embedding by lia. lia.
Qed.

Lemma code_inj (c d : ascii) : code c = code d -> c = d.
Proof.
  unfold code. intros H. apply N2Z.inj in H.
  rewrite <- (ascii_N_embedding c), <- (ascii_N_embedding d). now f_equal.
Qed.

Lemma eqb_code_neq (c d : ascii) : code c <> code d -> Ascii.eqb c d = false.
Proof.
  intros H. apply Ascii.eqb_neq. intros ->. now apply H.
Qed.

Lemma char_digit_digit_char (d : Z) :
  0 <= d < 36 -> char_digit (digit_char d) = Some d.
Proof.
  intros H. unfold char_digit, digit_char.
  destruct (d <? 10) eqn:E.
  - apply Z.ltb_lt in E. rewrite code_chr by lia.
    replace ((48 <=? 48 + d) && (48 + d <=? 57)) with true
      by (symmetry; apply andb_true_iff; split; apply Z.leb_le; lia).
    f_equal; lia.
  - apply Z.ltb_ge in E. rewrite code_chr by lia.
    replace ((48 <=? 87 + d) && (87 + d <=? 57)) with false
      by (symmetry; apply andb_false_iff; right; apply Z.leb_gt; lia).
    replace ((97 <=? 87 + d) && (87 + d <=? 122)) with true
      by (symmetry; apply andb_true_iff; split; apply Z.leb_le; lia).
    f_equal; lia.
Qed.

Lemma is_digit_digit_char (b d : Z) :
  0 <= d < b -> b <= 36 -> is_digit b (digit_char d) = true.
Proof.
  intros H Hb. unfold is_digit. rewrite char_digit_digit_char by lia.
  apply Z.ltb_lt; lia.
Qed.

Lemma digit_val_digit_char (d : Z) : 0 <= d < 36 -> digit_val (digit_char d) = d.
Proof.
  intros H. unfold digit_val. now rewrite char_digit_digit_char.
Qed.


Lemma digit_val_nonneg (c : ascii) : 0 <= digit_val c.
Proof.
  unfold digit_val, char_digit. pose proof (code_range c).
  destruct ((48 <=? code c) && (code c <=? 57)) eqn:E1;
    [apply andb_true_iff in E1 as [H1 H2]; apply Z.leb_le in H1; lia|].
  destruct ((97 <=? code c) && (code c <=? 122)) eqn:E2;
    [apply andb_true_iff in E2 as [H1 H2]; apply Z.leb_le in H1; lia|].
  destruct ((65 <=? code c) && (code c <=? 90)) eqn:E3;
    [apply andb_true_iff in E3 as [H1 H2]; apply Z.leb_le in H1; lia | lia].
Qed.

Lemma is_digit_val_bound (b : Z) (c : ascii) :
  is_digit b c = true -> 0 <= digit_val c < b.
Proof.
  intros H. pose proof (digit_val_nonneg c). split; [assumption|].
  unfold is_digit in H. unfold digit_val.
  destruct (char_digit c); [now apply Z.ltb_lt | discriminate].
Qed.

(** ** Values of digit runs *)

Lemma fold_dval (b : Z) (ds : list ascii) (acc : Z) :
  fold_left (fun a c => a * b + digit_val c) ds acc
  = acc * b ^ Z.of_nat (length ds) + dval b ds.
Proof.
  unfold dval. revert acc.
  induction ds as [|d ds IH] using rev_ind; intros acc.
  - simpl. lia.
  - rewrite !fold_left_app, length_app. simpl fold_left. simpl length.
    rewrite (IH acc). rewrite Nat2Z.inj_add, Z.pow_add_r by lia.
    change (Z.of_nat 1) with 1. rewrite Z.pow_1_r. ring.
Qed.

Lemma dval_app (b : Z) (x y : list ascii) :
  dval b (x ++ y) = dval b x * b ^ Z.of_nat (length y) + dval b y.
Proof.
  unfold dval at 1. rewrite fold_left_app. apply fold_dval.
Qed.

Lemma dval_nil (b : Z) : dval b [] = 0.
Proof. reflexivity. Qed.

Lemma dval_single (b : Z) (c : ascii) : dval b [c] = digit_val c.
Proof. unfold dval; simpl. lia. Qed.

Lemma dval_cons (b : Z) (c : ascii) (ds : list ascii) :
  dval b (c :: ds) = digit_val c * b ^ Z.of_nat (length ds) + dval b ds.
Proof.
  change (c :: ds) with ([c] ++ ds). rewrite dval_app, dval_single. reflexivity.
Qed.



Lemma all_digits_app (b : Z) (x y : list ascii) :
  all_digits b (x ++ y) = all_digits b x && all_digits b y.
Proof. apply forallb_app. Qed.

Lemma all_digits_cons (b : Z) (c : ascii) (ds : list ascii) :
  all_digits b (c :: ds) = is_digit b c && all_digits b ds.
Proof. reflexivity. Qed.


(** ** [toString] of a bigint *)

Lemma to_digits_spec (b : Z) (Hb : 2 <= b <= 36) (fuel : nat) :
  forall (n : Z) (acc : list ascii),
    0 <= n < b ^ Z.of_nat (S fuel) ->
    exists ds, to_digits (S fuel) b n acc = ds ++ acc /\
               ds <> [] /\ all_digits b ds = true /\ dval b ds = n.
Proof.
  induction fuel as [|fuel IH]; intros n acc Hn.
  - change (Z.of_nat 1) with 1 in Hn. rewrite Z.pow_1_r in Hn.
    simpl. rewrite Z.div_small, Z.mod_small by lia. simpl.
    exists [digit_char n]. split; [reflexivity|]. split; [discriminate|].
    split.
    + simpl. rewrite is_digit_digit_char by lia. reflexivity.
    + rewrite dval_single. apply digit_val_digit_char; lia.
  - assert (Hm : 0 <= n mod b < b) by (apply Z.mod_pos_bound; lia).
    change (to_digits (S (S fuel)) b n acc)
      with (if n / b =? 0 then digit_char (n mod b) :: acc
            else to_digits (S fuel) b (n / b) (digit_char (n mod b) :: acc)).
    destruct (n / b =? 0) eqn:E.
    + apply Z.eqb_eq in E.
      assert (n mod b = n) by (pose proof (Z.div_mod n b); lia).
      exists [digit_char (n mod b)]. split; [reflexivity|]. split; [discriminate|].
      split.
      * simpl. rewrite is_digit_digit_char by lia. reflexivity.
      * rewrite dval_single, digit_val_digit_char by lia. assumption.
    + assert (Hq : 0 <= n / b < b ^ Z.of_nat (S fuel)).
      { split; [apply Z.div_pos; lia|].
        apply Z.div_lt_upper_bound; [lia|].
        replace (Z.of_nat (S (S fuel))) with (1 + Z.of_nat (S fuel)) in Hn by lia.
        rewrite Z.pow_add_r, Z.pow_1_r in Hn by lia. lia. }
      destruct (IH (n / b) (digit_char (n mod b) :: acc) Hq)
        as (ds & Heq & Hne & Hall & Hval).
      exists (ds ++ [digit_char (n mod b)]). rewrite Heq.
      split; [now rewrite <- app_assoc|].
      split; [destruct ds; discriminate|].
      split.
      * rewrite all_digits_app, Hall. simpl.
        rewrite is_digit_digit_char by lia. reflexivity.
      * rewrite dval_app, dval_single, Hval, digit_val_digit_char by lia.
        simpl length. change (Z.of_nat 1) with 1. rewrite Z.pow_1_r.
        pose proof (Z.div_mod n b). lia.
Qed.

Lemma digits_of_spec (b n : Z) :
  2 <= b <= 36 -> 0 <= n ->
  digits_of b n <> [] /\ all_digits b (digits_of b n) = true /\
  dval b (digits_of b n) = n.
Proof.
  intros Hb Hn. unfold digits_of.
  assert (Hlt : 0 <= n < b ^ Z.of_nat (S (Z.to_nat (Z.log2 n)))).
  { split; [assumption|].
    rewrite Nat2Z.inj_succ, Z2Nat.id by apply Z.log2_nonneg.
    destruct (Z.eq_dec n 0) as [->|Hne].
    - apply Z.pow_pos_nonneg; [lia | simpl; lia].
    - apply Z.lt_le_trans with (2 ^ Z.succ (Z.log2 n)).
      + apply Z.log2_spec; lia.
      + apply Z.pow_le_mono_l. lia. }
  destruct (to_digits_spec b Hb _ n [] Hlt) as (ds & Heq & Hne & Hall & Hval).
  rewrite Heq, app_nil_r. auto.
Qed.

(** ** Reading digit runs *)

Lemma span_digits_app (b : Z) (ds r : list ascii) :
  all_digits b ds = true ->
  match r with [] => True | c :: _ => is_digit b c = false end ->
  span_digits b (ds ++ r) = (ds, r).
Proof.
  intros Hall Hr. induction ds as [|d ds IH]; simpl.
  - destruct r as [|c r]; [reflexivity|]. simpl. now rewrite Hr.
  - simpl in Hall. apply andb_true_iff in Hall as [Hd Hall].
    rewrite Hd, (IH Hall). reflexivity.
Qed.

Lemma span_digits_all (b : Z) (ds : list ascii) :
  all_digits b ds = true -> span_digits b ds = (ds, []).
Proof.
  intros H. rewrite <- (app_nil_r ds) at 1. now apply span_digits_app.
Qed.



Lemma trim_left_head (c : ascii) (s : list ascii) :
  is_space c = false -> trim_left (c :: s) = c :: s.
Proof. intros H; simpl. now rewrite H. Qed.




(** ** [split('.')] *)




(** ** Ether amounts *)











(** ** Funding confirmation *)

Lemma afterPolls_succ (log : list Request) (txHash : JsVal) (k : nat) :
  afterPolls (log ++ [eth_getTransactionReceipt txHash]) txHash k
  = afterPolls log txHash (S k).
Proof.
  unfold afterPolls. rewrite <- app_assoc. reflexivity.
Qed.

Lemma noReceiptFor_succ (provider : EIP1193Provider) (log : list Request)
    (txHash : JsVal) (n : nat) :
  noReceiptFor provider log txHash (S n) = true ->
  (exists v, provider log (eth_getTransactionReceipt txHash) = Ok v /\ truthy v = false) /\
  noReceiptFor provider (log ++ [eth_getTransactionReceipt txHash]) txHash n = true.
Proof.
  cbn [noReceiptFor].
  destruct (provider log (eth_getTransactionReceipt txHash)) as [v|]; [|discriminate].
  rewrite andb_true_iff. intros [Hv Hrest]. split; [|assumption].
  exists v. split; [reflexivity|]. now destruct (truthy v).
Qed.

(** While there is no receipt, the poll goes on: [n] fruitless requests
    leave the run where it started, with [n] more requests in the log. *)
Lemma checkTx_continues (provider : EIP1193Provider) (txHash : JsVal) (n : nat) :
  forall (m : nat) (w : World),
    noReceiptFor provider (requests w) txHash n = true ->
    checkTx (n + m) provider txHash w
    = checkTx m provider txHash
        (set_requests (afterPolls (requests w) txHash n) w).
Proof.
  induction n as [|n IH]; intros m w H.
  - unfold afterPolls. cbn [repeat]. rewrite app_nil_r. now destruct w.
  - destruct (noReceiptFor_succ _ _ _ _ H) as ((v & Hv & Hf) & Hrest).
    cbn [Nat.add checkTx]. unfold request. rewrite Hv, Hf.
    rewrite (IH m) by exact Hrest. cbn [requests set_requests].
    rewrite afterPolls_succ. reflexivity.
Qed.

Lemma checkTx_still_polling (provider : EIP1193Provider) (txHash : JsVal)
    (n : nat) (w : World) :
  noReceiptFor provider (requests w) txHash n = true ->
  checkTx n provider txHash w = None.
Proof.
  intros H. rewrite <- (Nat.add_0_r n) at 1. now rewrite checkTx_continues.
Qed.

Lemma checkTx_receipt (provider : EIP1193Provider) (txHash receipt : JsVal)
    (n m : nat) (w : World) :
  noReceiptFor provider (requests w) txHash n = true ->
  provider (afterPolls (requests w) txHash n) (eth_getTransactionReceipt txHash)
    = Ok receipt ->
  truthy receipt = true ->
  checkTx (n + S m) provider txHash w
  = Some (Ok receipt, set_requests (afterPolls (requests w) txHash (S n)) w).
Proof.
  intros H Hr Ht. rewrite checkTx_continues by assumption.
  cbn [checkTx]. unfold request. cbn [requests set_requests].
  rewrite Hr, Ht. unfold afterPolls.
  replace (repeat (eth_getTransactionReceipt txHash) (S n))
    with (repeat (eth_getTransactionReceipt txHash) n ++ [eth_getTransactionReceipt txHash])
    by (now rewrite <- repeat_cons).
  now rewrite app_assoc.
Qed.

Section Funding.
Context {K : Constants}.
Variable provider : EIP1193Provider.
Variable w : World.
Variables address amount user : list ascii.
Variable wei : Z.
Variable txHash : JsVal.

Hypothesis Hten : reportsTenChain provider (requests w) = true.
Hypothesis Hwei : parseEther amount = Ok wei.
Hypothesis Hsent :
  provider (requests w ++ [eth_chainId]) (fundingTransfer address wei user) = Ok txHash.

Lemma fundSessionKey_unfold (fuel : nat) :
  fundSessionKey fuel address amount provider user w
  = match checkTx fuel provider txHash
            (pollingStart (fundingTransfer address wei user) w) with
    | None => None
    | Some (Throw t, w2) => Some (catchBlock "Unknown error" t w2)
    | Some (Ok _, w2) =>
        Some ((updateState (withIsLoading false no_update) ;;; ret txHash) w2)
    end.
Proof.
  unfold fundSessionKey.
  assert (Hrun : (updateState loadingUpdate ;;;
                  checkTenNetwork provider ;;;
                  valueInWei <- lift (parseEther amount) ;;
                  request provider
                    (eth_sendTransaction address (toHex valueInWei) user)) w
                 = (Ok txHash, pollingStart (fundingTransfer address wei user) w)).
  { rewrite bind_updateState.
    erewrite bind_ok
      by (apply checkTenNetwork_ten; now rewrite updateState_requests).
    rewrite Hwei. unfold bind at 1, lift. unfold request.
    cbn [requests set_requests]. rewrite updateState_requests.
    fold (fundingTransfer address wei user). rewrite Hsent. unfold pollingStart.
    rewrite <- app_assoc. reflexivity. }
  rewrite Hrun. reflexivity.
Qed.

Lemma fundSessionKey_still_polling (n : nat) :
  noReceiptFor provider
    (requests w ++ [eth_chainId; fundingTransfer address wei user]) txHash n = true ->
  fundSessionKey n address amount provider user w = None.
Proof.
  intros H. rewrite fundSessionKey_unfold.
  now rewrite checkTx_still_polling.
Qed.

Lemma fundSessionKey_confirmed (n m : nat) (receipt : JsVal) :
  noReceiptFor provider
    (requests w ++ [eth_chainId; fundingTransfer address wei user]) txHash n = true ->
  provider
    (afterPolls (requests w ++ [eth_chainId; fundingTransfer address wei user]) txHash n)
    (eth_getTransactionReceipt txHash) = Ok receipt ->
  truthy receipt = true ->
  exists w',
    fundSessionKey (n + S m) address amount provider user w = Some (Ok txHash, w') /\
    issued w w'
      = [eth_chainId; fundingTransfer address wei user]
        ++ repeat (eth_getTransactionReceipt txHash) (S n) /\
    isLoading (state w') = false /\ error (state w') = None.
Proof.
  intros Hn Hr Ht. rewrite fundSessionKey_unfold.
  rewrite (checkTx_receipt provider txHash receipt n m
             (pollingStart (fundingTransfer address wei user) w)) by assumption.
  rewrite bind_updateState. unfold ret.
  eexists. split; [reflexivity|].
  split.
  - apply issued_app. rewrite updateState_requests.
    cbn [requests set_requests pollingStart]. unfold afterPolls.
    now rewrite <- app_assoc.
  - rewrite updateState_state. cbn [state set_requests pollingStart].
    rewrite updateState_state. split; reflexivity.
Qed.

End Funding.

Lemma never_confirming_provider (log : list Request) (txHash : JsVal) (n : nat) :
  noReceiptFor (tenProvider None) log txHash n = true.
Proof.
  revert log. induction n as [|n IH]; intros log; [reflexivity|].
  cbn [noReceiptFor tenProvider]. now rewrite IH.
Qed.

(** C7, as the claim states it, fails: with a provider that never has a
    receipt, no number of polls ends [fundSessionKey]. *)
Lemma funding_poll_has_no_bound :
  ~ (exists fuel,
        @fundSessionKey sampleConstants fuel sampleKey (lit "0.025")
          (tenProvider None) sampleUser keyedWorld <> None).
Proof.
  intros [fuel H]. apply H.
  apply (@fundSessionKey_still_polling sampleConstants (tenProvider None) keyedWorld
           sampleKey (lit "0.025") sampleUser 25000000000000000 (VStr sampleHash)).
  - reflexivity.
  - vm_compute. reflexivity.
  - reflexivity.
  - apply never_confirming_provider.
Qed.

(** C7, amended: the confirmation poll of [fundSessionKey] has no cap.
    After [n] receipt requests without a receipt the run is still polling,
    whatever [n] is, and it ends with the transaction hash at the first
    request that returns a receipt; no timeout error is raised. *)
Theorem funding_poll_ends_with_the_receipt {K : Constants}
    (provider : EIP1193Provider) (w : World) (address amount user : list ascii)
    (wei : Z) (txHash : JsVal) (n : nat)
    (Hten : reportsTenChain provider (requests w) = true)
    (Hwei : parseEther amount = Ok wei)
    (Hsent : provider (requests w ++ [eth_chainId])
               (fundingTransfer address wei user) = Ok txHash)
    (Hnone : noReceiptFor provider
               (requests w ++ [eth_chainId; fundingTransfer address wei user])
               txHash n = true) :
  fundSessionKey n address amount provider user w = None /\
  (forall (receipt : JsVal) (m : nat),
      provider
        (afterPolls (requests w ++ [eth_chainId; fundingTransfer address wei user])
           txHash n)
        (eth_getTransactionReceipt txHash) = Ok receipt ->
      truthy receipt = true ->
      exists w',
        fundSessionKey (n + S m) address amount provider user w
          = Some (Ok txHash, w') /\
        issued w w'
          = [eth_chainId; fundingTransfer address wei user]
            ++ repeat (eth_getTransactionReceipt txHash) (S n) /\
        isLoading (state w') = false /\ error (state w') = None).
Proof.
  split.
  - now apply (fundSessionKey_still_polling provider w address amount user wei txHash).
  - intros receipt m Hr Ht.
    now apply (fundSessionKey_confirmed provider w address amount user wei txHash
                 Hten Hwei Hsent n m receipt).
Qed.

Lemma funding_poll_ends_with_the_receipt_witness :
  @fundSessionKey sampleConstants 2 sampleKey (lit "0.025")
    (tenProvider (Some 2%nat)) sampleUser keyedWorld = None /\
  exists w',
    @fundSessionKey sampleConstants 3 sampleKey (lit "0.025")
      (tenProvider (Some 2%nat)) sampleUser keyedWorld
    = Some (Ok (VStr sampleHash), w') /\
    isLoading (state w') = false.
Proof.
  assert (Hwei : parseEther (lit "0.025") = Ok 25000000000000000)
    by (vm_compute; reflexivity).
  pose proof (@funding_poll_ends_with_the_receipt sampleConstants
                (tenProvider (Some 2%nat)) keyedWorld sampleKey (lit "0.025")
                sampleUser 25000000000000000 (VStr sampleHash) 2
                (eq_refl true) Hwei (eq_refl _) (eq_refl true)) as [Hnone Hdone].
  split; [exact Hnone|].
  destruct (Hdone VObj 0%nat (eq_refl _) (eq_refl true)) as (w' & Hrun & _ & Hload & _).
  exists w'. split; [exact Hrun | exact Hload].
Defined.

(** ** Active implies a session key *)

Section Preservation.
Variable P : SessionKeyState -> Prop.

Lemma preserves_ret {A} (a : A) : preserves P (ret a).
Proof. intros w H; exact H. Qed.

Lemma preserves_throw {A} (t : Thrown) : preserves P (@throw A t).
Proof. intros w H; exact H. Qed.

Lemma preserves_lift {A} (r : Result A) : preserves P (lift r).
Proof. intros w H; exact H. Qed.

Lemma preserves_request (provider : EIP1193Provider) (r : Request) :
  preserves P (request provider r).
Proof. intros w H; exact H. Qed.

Lemma preserves_bind {A B} (m : M A) (k : A -> M B) :
  preserves P m -> (forall a, preserves P (k a)) -> preserves P (bind m k).
Proof.
  intros Hm Hk w H. unfold bind. specialize (Hm w H).
  destruct (m w) as [[a|t] w1]; [now apply Hk | exact Hm].
Qed.

Lemma preserves_try_catch {A} (m : M A) (h : Thrown -> M A) :
  preserves P m -> (forall t, preserves P (h t)) -> preserves P (try_catch m h).
Proof.
  intros Hm Hh w H. unfold try_catch. specialize (Hm w H).
  destruct (m w) as [[a|t] w1]; [exact Hm | now apply Hh].
Qed.

Lemma preserves_updateState (updates : Partial) :
  (forall s, P s -> P (merge s updates)) -> preserves P (updateState updates).
Proof. intros Hu w H. rewrite updateState_state. now apply Hu. Qed.

Lemma preserves_getSessionKey : preserves P getSessionKey.
Proof. intros w H; exact H. Qed.

Lemma preserves_clearPersistedState : preserves P clearPersistedState.
Proof. intros w H. unfold clearPersistedState. cbn [snd]. now destruct (storageWorks w). Qed.

Lemma preserves_set_listening (b : bool) :
  preserves P (fun w => (Ok tt, set_listening b w)).
Proof. intros w H; exact H. Qed.

Lemma preserves_setupProviderListeners (provider : EIP1193Provider) :
  preserves P (setupProviderListeners provider).
Proof. intros w H; exact H. Qed.

Lemma preserves_checkTenNetwork {K : Constants} (provider : EIP1193Provider) :
  preserves P (checkTenNetwork provider).
Proof.
  unfold checkTenNetwork. apply preserves_bind; [apply preserves_request|].
  intros v. destruct (parseInt16 v) as [c|]; [|apply preserves_throw].
  destruct (c =? TEN_CHAIN_ID); [apply preserves_ret | apply preserves_throw].
Qed.

Lemma checkTx_state (provider : EIP1193Provider) (txHash : JsVal)
    (fuel : nat) :
  forall w r w', checkTx fuel provider txHash w = Some (r, w') -> state w' = state w.
Proof.
  induction fuel as [|fuel IH]; intros w r w' H; [discriminate|].
  cbn [checkTx] in H. unfold request in H.
  destruct (provider (requests w) (eth_getTransactionReceipt txHash)) as [v|t].
  - destruct (truthy v).
    + now inversion H.
    + now rewrite (IH _ _ _ H).
  - now inversion H.
Qed.

End Preservation.

Lemma merge_safeUpdate (updates : Partial) (s : SessionKeyState) :
  safeUpdate updates = true -> ActiveHasKey s -> ActiveHasKey (merge s updates).
Proof.
  destruct updates as [k a b l e], s as [sk sa sb sl se].
  unfold safeUpdate, ActiveHasKey, keyWhenActive; cbn.
  destruct a as [[|]|], k as [[k|]|], sa, sk; cbn; congruence.
Qed.

Lemma merge_keepsKey (updates : Partial) (s : SessionKeyState) :
  keepsKey updates = true -> HasKey s -> HasKey (merge s updates).
Proof.
  destruct updates as [k a b l e]. unfold keepsKey, HasKey; cbn.
  destruct k; cbn; congruence.
Qed.

Lemma HasKey_ActiveHasKey (s : SessionKeyState) : HasKey s -> ActiveHasKey s.
Proof.
  unfold HasKey, ActiveHasKey, keyWhenActive. intros ->. now destruct (isActive s).
Qed.

(** One step of a preservation proof: the rule of the construct at the
    head of the computation; [safe] settles the updates. *)
Ltac preserve_step safe :=
  first
    [ apply preserves_checkTenNetwork
    | apply preserves_setupProviderListeners
    | apply preserves_getSessionKey
    | apply preserves_clearPersistedState
    | apply preserves_set_listening
    | apply preserves_request
    | apply preserves_updateState; intros ? ?; safe
    | apply preserves_ret
    | apply preserves_throw
    | apply preserves_lift
    | apply preserves_try_catch; [|intros ?]
    | apply preserves_bind; [|intros ?]
    | match goal with
      | |- preserves _ (let _ := _ in _) => cbv zeta
      | |- preserves _ (match ?x with _ => _ end) => destruct x
      end ].

Ltac safe_update := apply merge_safeUpdate; [reflexivity | assumption].
Ltac key_kept := apply merge_keepsKey; [reflexivity | assumption].

Ltac preserve_invariant := unfold catchBlock; repeat preserve_step safe_update.
Ltac preserve_key := unfold catchBlock; repeat preserve_step key_kept.

Section Invariant.
Context {K : Constants}.

Lemma createSessionKey_invariant (provider : EIP1193Provider) :
  preserves ActiveHasKey (createSessionKey provider).
Proof. unfold createSessionKey. preserve_invariant. Qed.

Lemma deactivateSessionKey_invariant (provider : EIP1193Provider) :
  preserves ActiveHasKey (deactivateSessionKey provider).
Proof. unfold deactivateSessionKey. preserve_invariant. Qed.

Lemma deleteSessionKey_invariant (provider : EIP1193Provider) :
  preserves ActiveHasKey (deleteSessionKey provider).
Proof. unfold deleteSessionKey. preserve_invariant. Qed.

Lemma cleanupSessionKey_invariant (provider : EIP1193Provider) :
  preserves ActiveHasKey (cleanupSessionKey provider).
Proof. unfold cleanupSessionKey. preserve_invariant. Qed.

Lemma activateSessionKey_keeps_key (provider : EIP1193Provider) :
  preserves HasKey (activateSessionKey provider).
Proof. unfold activateSessionKey. preserve_key. Qed.

Lemma handlers_invariant :
  preserves ActiveHasKey handleDisconnect /\ preserves ActiveHasKey handleChainChanged.
Proof. split; [unfold handleDisconnect | unfold handleChainChanged]; preserve_invariant. Qed.

Lemma sendTransactionWith_invariant
    (calculateGasFees : EIP1193Provider -> Priority -> M GasFees)
    (nonceEntry : option Z -> Result (list ascii))
    (txParams : TransactionParams) (provider : EIP1193Provider) :
  (forall p priority, preserves ActiveHasKey (calculateGasFees p priority)) ->
  preserves ActiveHasKey
    (sendTransactionWith calculateGasFees nonceEntry txParams provider).
Proof.
  intros Hfees. unfold sendTransactionWith.
  preserve_invariant; apply Hfees.
Qed.

Lemma calculateGasFees_invariant (provider : EIP1193Provider) (priority : Priority) :
  preserves ActiveHasKey (Transaction.calculateGasFees provider priority) /\
  preserves ActiveHasKey (TransactionVariant.calculateGasFees provider priority).
Proof.
  split; [unfold Transaction.calculateGasFees | unfold TransactionVariant.calculateGasFees];
    preserve_invariant.
Qed.

Lemma fundSessionKey_invariant (fuel : nat) (address amount : list ascii)
    (provider : EIP1193Provider) (user : list ascii) (w : World)
    (r : Result JsVal) (w' : World) :
  fundSessionKey fuel address amount provider user w = Some (r, w') ->
  ActiveHasKey (state w) -> ActiveHasKey (state w').
Proof.
  unfold fundSessionKey. intros H Hinv.
  match type of H with
  | match ?m w with _ => _ end = _ =>
      assert (Hsent : preserves ActiveHasKey m) by preserve_invariant;
      specialize (Hsent w Hinv); destruct (m w) as [[txHash|t] w1]
  end; cbn [snd] in Hsent.
  - destruct (checkTx fuel provider txHash w1) as [[[receipt|t] w2]|] eqn:E;
      [| |discriminate];
      apply checkTx_state in E; rewrite <- E in Hsent; inversion H; subst.
    + assert (Hdone : preserves ActiveHasKey
                        (updateState (withIsLoading false no_update) ;;; ret txHash))
        by preserve_invariant.
      now apply Hdone.
    + assert (Hcatch : preserves ActiveHasKey (@catchBlock JsVal "Unknown error" t))
        by preserve_invariant.
      now apply Hcatch.
  - inversion H; subst.
    assert (Hcatch : preserves ActiveHasKey (@catchBlock JsVal "Unknown error" t))
      by preserve_invariant.
    now apply Hcatch.
Qed.

Lemma exec_invariant (c : Call) (w w' : World) :
  ActiveHasKey (state w) -> inOrder c w = true -> exec c w = Some w' ->
  ActiveHasKey (state w').
Proof.
  intros Hinv Hord Hexec. destruct c; cbn [exec] in Hexec.
  - inversion Hexec. now apply createSessionKey_invariant.
  - destruct (fundSessionKey fuel address amount provider user w) as [[r w1]|] eqn:E;
      [|discriminate].
    inversion Hexec; subst. now apply (fundSessionKey_invariant _ _ _ _ _ _ _ _ E).
  - inversion Hexec. apply HasKey_ActiveHasKey.
    now apply activateSessionKey_keeps_key.
  - inversion Hexec. now apply deactivateSessionKey_invariant.
  - inversion Hexec. now apply deleteSessionKey_invariant.
  - inversion Hexec. now apply cleanupSessionKey_invariant.
  - inversion Hexec. apply sendTransactionWith_invariant; [|assumption].
    intros p priority. apply calculateGasFees_invariant.
  - inversion Hexec. apply sendTransactionWith_invariant; [|assumption].
    intros p priority. apply calculateGasFees_invariant.
  - inversion Hexec. assumption.
  - inversion Hexec. assumption.
  - destruct (listening w); [|discriminate]. inversion Hexec.
    now apply handlers_invariant.
  - destruct (listening w); [|discriminate]. inversion Hexec.
    now apply handlers_invariant.
Qed.

End Invariant.

(** C3, as the claim states it, fails twice: [activateSessionKey] called
    while the state holds no session key leaves it active without a key,
    and so does a persisted item that says active without a key. *)
Lemma active_without_key_is_reachable :
  (let w' := snd (@activateSessionKey sampleConstants (tenProvider None) freshWorld) in
   isActive (state w') = true /\ sessionKey (state w') = None) /\
  (let w0 := initialWorld (Blob None true) true in
   isActive (state w0) = true /\ sessionKey (state w0) = None).
Proof. split; split; reflexivity. Qed.

(** C3, amended: in every state reached by calls made in order, that is
    with [activateSessionKey] called only while the state holds a session
    key, from a start whose persisted item does not say active without a
    key, [isActive] implies a session key. *)
Theorem active_implies_session_key {K : Constants} (w : World)
    (Hreach : reachableInOrder w) :
  isActive (state w) = true -> sessionKey (state w) <> None.
Proof.
  assert (Hinv : ActiveHasKey (state w)).
  { induction Hreach as [st works Hstart | c w w' _ IH Hord Hexec].
    - exact Hstart.
    - exact (exec_invariant c w w' IH Hord Hexec). }
  unfold ActiveHasKey, keyWhenActive in Hinv. intros Ha Hk.
  rewrite Ha, Hk in Hinv. discriminate.
Qed.

Lemma active_implies_session_key_witness :
  let provider := tenProvider None in
  let w1 := snd (@createSessionKey sampleConstants provider freshWorld) in
  let w2 := snd (@activateSessionKey sampleConstants provider w1) in
  @reachableInOrder sampleConstants w2 /\ isActive (state w2) = true /\
  sessionKey (state w2) <> None.
Proof.
  intros provider w1 w2.
  assert (Hreach : @reachableInOrder sampleConstants w2).
  { apply (@reach_call sampleConstants (CallActivate provider) w1 w2);
      [|reflexivity|reflexivity].
    apply (@reach_call sampleConstants (CallCreate provider) freshWorld w1);
      [|reflexivity|reflexivity].
    apply (@reach_start sampleConstants NoItem true). reflexivity. }
  split; [exact Hreach|]. split; [reflexivity|].
  exact (@active_implies_session_key sampleConstants w2 Hreach (eq_refl true)).
Defined.

(** ** Transaction builder: zero fields and the state check *)

(** C1, at [{ to, data: '0x', nonce: 0 }] with no value: the nonce entry of
    core/transaction.ts and the value entry of both copies are the text
    [0x0], which the encoder turns into the byte 0, where the empty string
    is the byte 128; the bytes submitted carry them. *)
Theorem zero_fields_are_encoded_as_a_zero_byte :
  toHex_number (Some 0) = Ok (lit "0x0") /\
  TransactionVariant.nonceEntry (Some 0) = Ok (lit "0x") /\
  valueField sampleTx = lit "0x0" /\
  rlpEncode (RStr (ensure0x (lit "0x0"))) = Ok [0] /\
  rlpEncode (RStr (ensure0x (lit "0x"))) = Ok [128] /\
  actuations (issued keyedWorld
    (snd (@Transaction.sendTransaction sampleConstants sampleTx (tenProvider None) keyedWorld)))
  = [@executeRequest sampleConstants
       [236; 130; 1; 187; 0; 132; 11; 235; 194; 0; 132; 154; 248; 218; 0;
        130; 82; 8; 148; 82; 144; 132; 0; 9; 133; 39; 136; 110; 15; 112;
        48; 6; 152; 87; 210; 228; 22; 158; 231; 0; 128; 192; 128; 128; 128]] /\
  actuations (issued keyedWorld
    (snd (@TransactionVariant.sendTransaction sampleConstants sampleTx (tenProvider None) keyedWorld)))
  = [@executeRequest sampleConstants
       [236; 130; 1; 187; 128; 132; 5; 245; 225; 0; 132; 149; 2; 249; 0;
        130; 82; 8; 148; 82; 144; 132; 0; 9; 133; 39; 136; 110; 15; 112;
        48; 6; 152; 87; 210; 228; 22; 158; 231; 0; 128; 192; 128; 128; 128]].
Proof.
  repeat split; vm_compute; reflexivity.
Qed.

(** C4, at a state that holds a session key with [isActive] false:
    [sendTransaction] (either copy) does not fail, it builds the
    transaction and submits it. *)
Theorem inactive_key_still_sends :
  isActive (state keyedWorld) = false /\
  (let r := @Transaction.sendTransaction sampleConstants sampleTx (tenProvider None) keyedWorld in
   fst r = Ok (VStr sampleHash) /\
   length (actuations (issued keyedWorld (snd r))) = 1%nat /\
   error (state (snd r)) = None) /\
  (let r := @TransactionVariant.sendTransaction sampleConstants sampleTx (tenProvider None) keyedWorld in
   fst r = Ok (VStr sampleHash) /\
   length (actuations (issued keyedWorld (snd r))) = 1%nat /\
   error (state (snd r)) = None).
Proof.
  repeat split; vm_compute; reflexivity.
Qed.

(** ** Transaction builder: fees *)

Section FeeFallback.
Context {K : Constants}.




End FeeFallback.




(** ** Numeric entries of the transaction *)

Lemma to_digits_head (b : Z) (Hb : 2 <= b <= 36) (fuel : nat) :
  forall (n : Z) (acc : list ascii),
    0 < n < b ^ Z.of_nat (S fuel) ->
    exists d rest, to_digits (S fuel) b n acc = digit_char d :: rest ++ acc /\
                   0 < d < b.
Proof.
  induction fuel as [|fuel IH]; intros n acc Hn.
  - change (Z.of_nat 1) with 1 in Hn. rewrite Z.pow_1_r in Hn.
    simpl. rewrite Z.div_small, Z.mod_small by lia. simpl.
    exists n, []. split; [reflexivity | lia].
  - change (to_digits (S (S fuel)) b n acc)
      with (if n / b =? 0 then digit_char (n mod b) :: acc
            else to_digits (S fuel) b (n / b) (digit_char (n mod b) :: acc)).
    destruct (n / b =? 0) eqn:E.
    + apply Z.eqb_eq in E.
      assert (n mod b = n) by (pose proof (Z.div_mod n b); lia).
      exists (n mod b), []. split; [reflexivity|].
      pose proof (Z.mod_pos_bound n b). lia.
    + apply Z.eqb_neq in E.
      assert (Hq : 0 < n / b < b ^ Z.of_nat (S fuel)).
      { split; [pose proof (Z.div_pos n b); lia|].
        apply Z.div_lt_upper_bound; [lia|].
        replace (Z.of_nat (S (S fuel))) with (1 + Z.of_nat (S fuel)) in Hn by lia.
        rewrite Z.pow_add_r, Z.pow_1_r in Hn by lia. lia. }
      destruct (IH (n / b) (digit_char (n mod b) :: acc) Hq) as (d & rest & Heq & Hd).
      exists d, (rest ++ [digit_char (n mod b)]). rewrite Heq.
      split; [now rewrite <- app_assoc | assumption].
Qed.

Lemma digits_of_head (b n : Z) :
  2 <= b <= 36 -> 0 < n ->
  exists d rest, digits_of b n = digit_char d :: rest /\ 0 < d < b.
Proof.
  intros Hb Hn. unfold digits_of.
  assert (Hlt : 0 < n < b ^ Z.of_nat (S (Z.to_nat (Z.log2 n)))).
  { split; [assumption|].
    rewrite Nat2Z.inj_succ, Z2Nat.id by apply Z.log2_nonneg.
    apply Z.lt_le_trans with (2 ^ Z.succ (Z.log2 n)).
    - apply Z.log2_spec; lia.
    - apply Z.pow_le_mono_l. lia. }
  destruct (to_digits_head b Hb _ n [] Hlt) as (d & rest & Heq & Hd).
  exists d, rest. rewrite Heq, app_nil_r. auto.
Qed.

Lemma is_digit_16_code (c : ascii) :
  is_digit 16 c = true ->
  48 <= code c <= 57 \/ 97 <= code c <= 102 \/ 65 <= code c <= 70.
Proof.
  unfold is_digit, char_digit.
  destruct ((48 <=? code c) && (code c <=? 57)) eqn:E1.
  - apply andb_true_iff in E1 as [H1 H2]. apply Z.leb_le in H1, H2. lia.
  - destruct ((97 <=? code c) && (code c <=? 122)) eqn:E2.
    + apply andb_true_iff in E2 as [H1 H2]. apply Z.leb_le in H1, H2.
      intros H. apply Z.ltb_lt in H. lia.
    + destruct ((65 <=? code c) && (code c <=? 90)) eqn:E3; [|discriminate].
      apply andb_true_iff in E3 as [H1 H2]. apply Z.leb_le in H1, H2.
      intros H. apply Z.ltb_lt in H. lia.
Qed.

Lemma digit16_facts (c : ascii) :
  is_digit 16 c = true ->
  is_space c = false /\ Ascii.eqb c "-"%char = false /\
  Ascii.eqb c "+"%char = false /\ Ascii.eqb c "x"%char = false /\
  Ascii.eqb c "X"%char = false.
Proof.
  intros H. apply is_digit_16_code in H.
  assert (Hne : forall d,
             (code d < 48 \/ 57 < code d < 65 \/ 70 < code d < 97 \/ 102 < code d) ->
             Ascii.eqb c d = false).
  { intros d Hd. apply eqb_code_neq. lia. }
  split.
  { unfold is_space. apply orb_false_iff. split.
    - apply Z.eqb_neq; lia.
    - apply andb_false_iff. right. apply Z.leb_gt; lia. }
  repeat split; apply Hne; vm_compute; intuition congruence.
Qed.

(** [parseInt] of two hex digits is their value. *)
Lemma uint8_of_hex_pair (a b : ascii) :
  is_digit 16 a = true -> is_digit 16 b = true ->
  uint8_of_pair a b = 16 * digit_val a + digit_val b.
Proof.
  intros Ha Hb.
  destruct (digit16_facts a Ha) as (Hs & Hm & Hp & _).
  destruct (digit16_facts b Hb) as (_ & _ & _ & Hx & HX).
  unfold uint8_of_pair, parseInt16_str.
  rewrite trim_left_head by assumption. rewrite Hm, Hp.
  unfold parseInt16_unsigned, strip_0x. rewrite Hx, HX, andb_false_r.
  rewrite span_digits_all by (simpl; now rewrite Ha, Hb).
  cbn [fst]. rewrite dval_cons, dval_single. cbn [length].
  change (16 ^ Z.of_nat 1) with 16.
  pose proof (is_digit_val_bound 16 a Ha). pose proof (is_digit_val_bound 16 b Hb).
  rewrite Z.mod_small by lia. lia.
Qed.

Lemma bytes_value_cons (x : Z) (bs : list Z) :
  bytes_value (x :: bs) = x * 256 ^ Z.of_nat (length bs) + bytes_value bs.
Proof.
  unfold bytes_value. cbn [fold_left]. replace (0 * 256 + x) with x by lia.
  generalize x. clear x.
  induction bs as [|y bs IH] using rev_ind; intros x; [simpl; lia|].
  rewrite !fold_left_app, length_app. cbn [fold_left length].
  rewrite (IH x). rewrite Nat2Z.inj_add, Z.pow_add_r by lia.
  change (Z.of_nat 1) with 1. rewrite Z.pow_1_r. ring.
Qed.

(** An even run of hex digits, read two by two, gives bytes of the same
    value. *)
Lemma hex_pairs_value (k : nat) :
  forall ds, length ds = (2 * k)%nat -> all_digits 16 ds = true ->
    length (hex_pairs ds) = k /\
    forallb (fun b => (0 <=? b) && (b <? 256)) (hex_pairs ds) = true /\
    bytes_value (hex_pairs ds) = dval 16 ds.
Proof.
  induction k as [|k IH]; intros ds Hlen Hall.
  - destruct ds; [repeat split | discriminate].
  - destruct ds as [|a [|b r]]; [simpl in Hlen; lia | simpl in Hlen; lia |].
    cbn [all_digits forallb] in Hall.
    apply andb_true_iff in Hall as [Ha Hall].
    apply andb_true_iff in Hall as [Hb Hr].
    destruct (IH r ltac:(simpl in Hlen; lia) Hr) as (Hl & Hrange & Hval).
    cbn [hex_pairs]. rewrite uint8_of_hex_pair by assumption.
    pose proof (is_digit_val_bound 16 a Ha). pose proof (is_digit_val_bound 16 b Hb).
    split; [simpl; now rewrite Hl|]. split.
    + cbn [forallb]. rewrite Hrange, andb_true_r.
      apply andb_true_iff. split; [apply Z.leb_le | apply Z.ltb_lt]; lia.
    + rewrite bytes_value_cons, Hval, Hl.
      rewrite (dval_cons 16 a), (dval_cons 16 b).
      assert (Hr2 : length r = (2 * k)%nat) by (simpl in Hlen; lia).
      cbn [length]. rewrite Hr2.
      replace (Z.of_nat (S (2 * k))) with (1 + Z.of_nat (2 * k)) by lia.
      rewrite Z.pow_add_r, Z.pow_1_r by lia.
      replace (Z.of_nat (2 * k)) with (2 * Z.of_nat k) by lia.
      rewrite (Z.pow_mul_r 16 2) by lia. change (16 ^ 2) with 256. ring.
Qed.

(** Every non-zero numeric entry of the transaction, which is [toHex] of
    its value, is read by the encoder as the canonical integer bytes of that
    value: big-endian, no leading zero byte. *)
Theorem nonzero_entry_is_minimal_big_endian (n : Z) (Hn : 0 < n) :
  exists bs, rlp_toBytes (ensure0x (toHex n)) = Ok bs /\
             bs <> [] /\ minimalBytes bs = true /\ bytes_value bs = n.
Proof.
  destruct (digits_of_spec 16 n ltac:(lia) ltac:(lia)) as (_ & Hall & Hval).
  destruct (digits_of_head 16 n ltac:(lia) Hn) as (d & rest & Hds & Hd).
  assert (Hhex : toHex n = "0"%char :: "x"%char :: digits_of 16 n).
  { unfold toHex, bigint_toString.
    destruct (n <? 0) eqn:E; [apply Z.ltb_lt in E; lia|].
    rewrite Hds. reflexivity. }
  assert (Hread : rlp_toBytes (ensure0x (toHex n))
                  = Ok (hex_pairs (padToEven (digits_of 16 n)))).
  { rewrite Hhex. unfold ensure0x, rlp_toBytes, isHexPrefixed.
    change (startsWith (lit "0x") ("0"%char :: "x"%char :: digits_of 16 n)) with true.
    cbv iota. change (startsWith (lit "0x") ("0"%char :: "x"%char :: digits_of 16 n)) with true.
    cbv iota. cbn [skipn]. unfold rlp_hexToBytes.
    assert (Hp : all_digits 16 (padToEven (digits_of 16 n)) = true).
    { unfold padToEven. destruct (Nat.even (length (digits_of 16 n))); [assumption|].
      rewrite all_digits_cons, Hall. reflexivity. }
    now rewrite Hp. }
  exists (hex_pairs (padToEven (digits_of 16 n))). split; [exact Hread|].
  assert (Hdv : digit_val (digit_char d) = d) by (apply digit_val_digit_char; lia).
  rewrite Hds in *. unfold padToEven.
  pose proof Hall as Hall'. rewrite all_digits_cons in Hall'.
  apply andb_true_iff in Hall' as [Ha Hrest].
  destruct (Nat.even (length (digit_char d :: rest))) eqn:Ev.
  - apply Nat.even_spec in Ev. destruct Ev as [k Hk].
    destruct (hex_pairs_value k _ Hk Hall) as (Hl & Hrange & Hv).
    destruct rest as [|b rest]; [simpl in Hk; lia|].
    rewrite all_digits_cons in Hrest. apply andb_true_iff in Hrest as [Hb _].
    split; [discriminate|]. split; [|now rewrite Hv].
    unfold minimalBytes. rewrite Hrange, andb_true_r.
    cbn [hex_pairs]. rewrite uint8_of_hex_pair by assumption.
    pose proof (is_digit_val_bound 16 b Hb).
    apply negb_true_iff, Z.eqb_neq. lia.
  - assert (Hodd : Nat.even (length ("0"%char :: digit_char d :: rest)) = true).
    { change (length ("0"%char :: digit_char d :: rest))
        with (S (length (digit_char d :: rest))).
      rewrite Nat.even_succ, <- Nat.negb_even, Ev. reflexivity. }
    apply Nat.even_spec in Hodd. destruct Hodd as [k Hk].
    assert (Hall0 : all_digits 16 ("0"%char :: digit_char d :: rest) = true)
      by (rewrite all_digits_cons, Hall; reflexivity).
    destruct (hex_pairs_value k _ Hk Hall0) as (Hl & Hrange & Hv).
    split; [discriminate|]. split.
    + unfold minimalBytes. rewrite Hrange, andb_true_r.
      cbn [hex_pairs]. rewrite uint8_of_hex_pair by (reflexivity || assumption).
      change (digit_val "0") with 0.
      apply negb_true_iff, Z.eqb_neq. lia.
    + rewrite Hv, dval_cons. change (digit_val "0") with 0. lia.
Qed.

Lemma nonzero_entry_is_minimal_big_endian_witness :
  exists bs, rlp_toBytes (ensure0x (toHex 443)) = Ok bs /\
             bs <> [] /\ minimalBytes bs = true /\ bytes_value bs = 443.
Proof.
  exact (nonzero_entry_is_minimal_big_endian 443 (eq_refl Lt)).
Defined.

(** ** The hex detour of the encoded bytes *)

Lemma hex2_pair_small :
  forallb (fun k => match hex2 (Z.of_nat k) with
                    | [a; c] => uint8_of_pair a c =? Z.of_nat k
                    | _ => false
                    end) (seq 0 256) = true.
Proof. vm_compute. reflexivity. Qed.

Lemma hex2_pair (b : Z) :
  0 <= b < 256 -> exists a c, hex2 b = [a; c] /\ uint8_of_pair a c = b.
Proof.
  intros Hb. pose proof hex2_pair_small as H.
  rewrite forallb_forall in H. specialize (H (Z.to_nat b)).
  rewrite Z2Nat.id in H by lia.
  assert (Hin : In (Z.to_nat b) (seq 0 256)) by (apply in_seq; lia).
  specialize (H Hin).
  destruct (hex2 b) as [|a [|c [|x r]]]; try discriminate.
  exists a, c. split; [reflexivity | now apply Z.eqb_eq].
Qed.

Lemma hex_pairs_rlpHexOf (bytes : list Z) :
  forallb (fun b => (0 <=? b) && (b <? 256)) bytes = true ->
  hex_pairs (rlpHexOf bytes) = bytes.
Proof.
  unfold rlpHexOf. induction bytes as [|b bytes IH]; intros H; [reflexivity|].
  cbn [forallb] in H. apply andb_true_iff in H as [Hb Hrest].
  apply andb_true_iff in Hb as [H0 H1]. apply Z.leb_le in H0. apply Z.ltb_lt in H1.
  destruct (hex2_pair b (conj H0 H1)) as (a & c & Heq & Hv).
  cbn [map concat]. rewrite Heq. cbn [app hex_pairs].
  now rewrite Hv, (IH Hrest).
Qed.

(** Turning the encoded bytes into hex text and back, as [sendTransaction]
    does before it prepends the type byte, gives the bytes again. *)
Theorem hex_detour_is_identity (bytes : list Z)
    (Hrange : forallb (fun b => (0 <=? b) && (b <? 256)) bytes = true) :
  hexToBytes (lit "0x" ++ rlpHexOf bytes) = bytes.
Proof.
  unfold hexToBytes.
  change (lit "0x" ++ rlpHexOf bytes) with ("0"%char :: "x"%char :: rlpHexOf bytes).
  change (replace_empty (lit "0x") ("0"%char :: "x"%char :: rlpHexOf bytes))
    with (rlpHexOf bytes).
  now apply hex_pairs_rlpHexOf.
Qed.

Lemma hex_detour_is_identity_witness :
  hexToBytes (lit "0x" ++ rlpHexOf [236; 130; 1; 187; 0; 128]) = [236; 130; 1; 187; 0; 128].
Proof.
  exact (hex_detour_is_identity [236; 130; 1; 187; 0; 128] (eq_refl true)).
Defined.


